(** * A shallow embedding of [main.py] of the YT Bulk Downloader.

    The module-level helpers [build_format] and [human_bytes] and the
    download worker [DLWorker] (its [stop] method and its [run] loop with the
    per-item [hook]) are modelled.  The extraction library [yt_dlp] is a black
    box: for the i-th queued URL it is described by what [YoutubeDL(opts)],
    [extract_info] and [download] do (raise, or return), and by the raw
    progress dictionaries [download] hands to the hook.  The GUI thread's
    [stop()] calls are an explicit schedule: how many calls land between two
    consecutive reads of [self._stop] by the loop. *)

From Stdlib Require Import String Ascii List ZArith QArith Qround Qpower Lia Lqa.
From Stdlib Require Import Morphisms.
Import ListNotations.
Open Scope string_scope.
Open Scope Z_scope.
Open Scope list_scope.

(** ** Python values *)

(** The values held in the payload dictionaries emitted on [sig_update]. *)
Inductive pyval : Type :=
| VStr (s : string)
| VInt (z : Z).

(** A payload dictionary, as the ordered list of its literal's entries. *)
Definition payload := list (string * pyval).

(** Lookup of a key, as Python's [dict.get]. *)
Fixpoint dict_get (k : string) (d : payload) : option pyval :=
  match d with
  | [] => None
  | (k', v) :: d' => if String.eqb k k' then Some v else dict_get k d'
  end.

(** One decimal digit as a character. *)
Definition digit_char (d : Z) : ascii := ascii_of_nat (48 + Z.to_nat d).

(** The decimal digits of a non-negative [n], prepended to [acc]; [fuel]
    bounds the number of digits. *)
Fixpoint decimal_digits (fuel : nat) (n : Z) (acc : string) : string :=
  match fuel with
  | O => acc
  | S fuel' =>
      let acc' := String (digit_char (n mod 10)) acc in
      if n <? 10 then acc' else decimal_digits fuel' (n / 10) acc'
  end.

(** The decimal representation of an integer.  The number of bits of [|z|]
    bounds the number of its decimal digits. *)
Definition int_text (z : Z) : string :=
  let fuel := S (Z.to_nat (Z.log2 (Z.abs z))) in
  if z <? 0 then ("-" ++ decimal_digits fuel (- z) "")%string
  else decimal_digits fuel z "".

(** [str(z)] (and [f"{z}"]) of a Python [int]: CPython refuses to convert an
    [int] of more than [4300] decimal digits ([sys.int_info.default_max_str_digits])
    and raises [ValueError] ([None]). *)
Definition py_str_int (z : Z) : option string :=
  if (4300 <? String.length (int_text (Z.abs z)))%nat then None else Some (int_text z).

(** ** [build_format] *)

(** [Optional[int]] truthiness: [None] and [0] are falsy. *)
Definition int_truthy (o : option Z) : bool :=
  match o with
  | None => false
  | Some z => negb (z =? 0)
  end.

(** [return f"bv*[height<={max_res}]+ba/b[height<={max_res}]" if max_res
    else "bv*+ba/b"]; [None] is the [ValueError] of the f-string. *)
Definition build_format (max_res : option Z) : option string :=
  match max_res with
  | Some r =>
      if int_truthy max_res then
        match py_str_int r with
        | Some t => Some ("bv*[height<=" ++ t ++ "]+ba/b[height<=" ++ t ++ "]")%string
        | None => None
        end
      else Some "bv*+ba/b"
  | None => Some "bv*+ba/b"
  end.

(** ** [human_bytes] *)

(** A Python [float] is modelled by the rational it denotes (finite values
    only).  Dividing a float by [1024], a power of two, is exact, so [n/=1024]
    is rational division.  [f"{x:.1f}"] rounds the exact value to one decimal
    place, ties to even, as CPython's correctly rounded formatting does. *)

(** Rounding to the nearest integer, ties to even. *)
Definition round_half_even (q : Q) : Z :=
  let f := Qfloor q in
  let r := (q - inject_Z f)%Q in
  if Qeq_bool r (1 # 2) then (if Z.even f then f else f + 1)
  else if Qle_bool r (1 # 2) then f else f + 1.

(** [f"{x:.1f}"] for [x >= 0]. *)
Definition format_1f (x : Q) : string :=
  let m := round_half_even (x * 10)%Q in
  (int_text (m / 10) ++ "." ++ int_text (m mod 10))%string.

Definition units : list string := ["B"; "KB"; "MB"; "GB"; "TB"].

(** [while n >= 1024 and i < len(units)-1: n/=1024; i+=1].  The loop body runs
    at most [len(units)-1] times, so [fuel = len(units)] never runs out. *)
Fixpoint human_bytes_loop (fuel : nat) (n : Q) (i : nat) : Q * nat :=
  match fuel with
  | O => (n, i)
  | S fuel' =>
      if Qle_bool 1024 n && (i <? length units - 1)%nat
      then human_bytes_loop fuel' (n / 1024)%Q (S i)
      else (n, i)
  end.

(** [def human_bytes(n: Optional[float]) -> str] *)
Definition human_bytes (n : option Q) : string :=
  match n with
  | None => "0 B"
  | Some q =>
      (* if not n or n <= 0: return "0 B" *)
      if Qeq_bool q 0 || Qle_bool q 0 then "0 B"
      else
        let '(n', i) := human_bytes_loop (length units) q 0 in
        (format_1f n' ++ " " ++ nth i units "")%string
  end.

(** ** Binary64 arithmetic *)

(** A Python [float] is the rational it denotes.  An arithmetic operation on
    floats, and CPython's [int / int], give the exact result rounded to the
    nearest binary64 value, ties to even: 53 significant bits.  The exponent
    is unbounded here; binary64 agrees on results of magnitude in
    [[2^-1022, 2^1024)] and on [0]. *)

Definition pow2 (s : Z) : Q := Qpower (2 # 1) s.

(** [floor(log2 q)] for [q > 0]: the bit lengths of numerator and denominator
    give it up to one. *)
Definition Qlog2_floor (q : Q) : Z :=
  let e := Z.log2 (Qnum q) - Z.log2 (Zpos (Qden q)) in
  if Qle_bool (pow2 e) q then e else e - 1.

(** Rounding to a multiple of [2^s], ties to even. *)
Definition round_at (s : Z) (x : Q) : Q :=
  (inject_Z (round_half_even (x / pow2 s)) * pow2 s)%Q.

(** A positive [x] in [[2^e, 2^(e+1))] has the spacing [2^(e-52)]. *)
Definition round_pos (x : Q) : Q := round_at (Qlog2_floor x - 52) x.

(** Rounding to binary64. *)
Definition round_double (x : Q) : Q :=
  if Qle_bool x 0 then (if Qeq_bool x 0 then 0%Q else (- round_pos (- x))%Q)
  else round_pos x.

(** The unit roundoff [2^-53]. *)
Definition u53 : Q := 1 # 9007199254740992.

(** [int(x)] of a float: truncation toward zero. *)
Definition py_trunc (x : Q) : Z :=
  if Qle_bool 0 x then Qfloor x else - Qfloor (- x).

(** A Python number: an [int] or a (finite) [float]. *)
Inductive pynum : Type :=
| NInt (z : Z)
| NFloat (q : Q).

Definition num_val (n : pynum) : Q :=
  match n with NInt z => inject_Z z | NFloat q => q end.

(** [bool(n)]: [0] and [0.0] are falsy. *)
Definition num_truthy (n : pynum) : bool := negb (Qeq_bool (num_val n) 0).

Definition num_is_int (n : pynum) : bool :=
  match n with NInt _ => true | NFloat _ => false end.

(** [n * 100]: exact on an [int], rounded on a [float]. *)
Definition num_mul100 (n : pynum) : pynum :=
  match n with
  | NInt z => NInt (z * 100)
  | NFloat q => NFloat (round_double (q * 100)%Q)
  end.

(** An operand of a mixed operation converted to [float]. *)
Definition float_of (n : pynum) : Q :=
  match n with NInt z => round_double (inject_Z z) | NFloat q => q end.

(** [a / b] (true division) for [b] nonzero: [int / int] is correctly
    rounded; otherwise an [int] operand is converted to [float] first. *)
Definition num_truediv (a b : pynum) : Q :=
  match a, b with
  | NInt x, NInt y => round_double (inject_Z x / inject_Z y)
  | _, _ => round_double (float_of a / float_of b)
  end.

(** ** The worker *)

(** The exceptions [yt_dlp] may raise, with their [str(e)]. *)
Inductive py_exception : Type :=
| DownloadError (msg : string)   (** [yt_dlp.utils.DownloadError] *)
| OtherException (msg : string). (** any other [Exception] *)

(** A raw progress dictionary [d] handed to the hook; absent keys are [None]. *)
Record hook_dict : Type := {
  d_status : option string;
  d_total_bytes : option pynum;
  d_total_bytes_estimate : option pynum;
  d_downloaded_bytes : option pynum;
  d_speed : option Q
}.

(** What [ydl.extract_info(url, download=False, process=False)] does: raise,
    or return [info]; [ProbeReturns t] carries [info.get("title")] when
    [info] is truthy, [None] when [info] is falsy or has no title. *)
Inductive probe_result : Type :=
| ProbeRaises (e : py_exception)
| ProbeReturns (title : option string).

(** The extraction library on one URL. *)
Record ydl_behaviour : Type := {
  ydl_init : option py_exception;      (** [yt_dlp.YoutubeDL(opts)] raises? *)
  ydl_probe : probe_result;            (** [ydl.extract_info(...)] *)
  ydl_progress : list hook_dict;       (** the hook calls made by [ydl.download] *)
  ydl_download : option py_exception   (** [ydl.download([url])] raises? *)
}.

(** A queued row: [{"url": ...}]. *)
Record row : Type := { url : string }.

(** The state of a [DLWorker]: [self.rows], [self.opts], [self._stop]. *)
Record DLWorker : Type := {
  rows : list row;
  opts : payload;
  stop_flag : bool
}.

(** [__init__]: [self._stop = False]. *)
Definition DLWorker_init (rs : list row) (o : payload) : DLWorker :=
  {| rows := rs; opts := o; stop_flag := false |}.

(** [def stop(self): self._stop = True] *)
Definition stop (w : DLWorker) : DLWorker :=
  {| rows := rows w; opts := opts w; stop_flag := true |}.

(** What the worker emits: [sig_update.emit(i, payload)] or [sig_done.emit()]. *)
Inductive event : Type :=
| Update (i : nat) (p : payload)
| Finished.

(** [d.get(k) or ... or dflt] on a numeric entry: [None], [0] and [0.0] are
    falsy. *)
Definition py_or_num (o : option pynum) (dflt : pynum) : pynum :=
  match o with
  | Some n => if num_truthy n then n else dflt
  | None => dflt
  end.

(** [total = d.get("total_bytes") or d.get("total_bytes_estimate") or 0] *)
Definition hook_total (d : hook_dict) : pynum :=
  py_or_num (d_total_bytes d) (py_or_num (d_total_bytes_estimate d) (NInt 0)).

(** [got = d.get("downloaded_bytes") or 0] *)
Definition hook_got (d : hook_dict) : pynum := py_or_num (d_downloaded_bytes d) (NInt 0).

(** [pct = int(got*100/total) if total else 0]: [got*100] and the true
    division are rounded as Python does, [int] truncates toward zero. *)
Definition hook_pct (d : hook_dict) : Z :=
  let total := hook_total d in
  if num_truthy total then py_trunc (num_truediv (num_mul100 (hook_got d)) total) else 0.

(** [f"{human_bytes(d.get('speed'))}/s" if d.get("speed") else ""] *)
Definition hook_speed (d : hook_dict) : string :=
  match d_speed d with
  | Some s => if Qeq_bool s 0 then "" else (human_bytes (Some s) ++ "/s")%string
  | None => ""
  end.

(** [st == "..."] for [st = d.get("status")], which may be [None]. *)
Definition status_eqb (st : option string) (s : string) : bool :=
  match st with
  | Some t => String.eqb t s
  | None => false
  end.

(** [def hook(d)] of item [i]. *)
Definition hook (i : nat) (d : hook_dict) : list event :=
  let st := d_status d in
  if status_eqb st "downloading" then
    [Update i [("status", VStr "Downloading"); ("progress", VInt (hook_pct d));
               ("speed", VStr (hook_speed d))]]
  else if status_eqb st "finished" then
    [Update i [("status", VStr "Merging"); ("progress", VInt 100)]]
  else [].

(** The two [except] clauses. *)
Definition error_payload (e : py_exception) : payload :=
  match e with
  | DownloadError m =>
      [("status", VStr "Error"); ("error", VStr ("Download failed: " ++ m)%string)]
  | OtherException m =>
      [("status", VStr "Error");
       ("error", VStr ("An unexpected error occurred: " ++ m)%string)]
  end.

(** The title probe: [if info and info.get("title"): emit({"title": ...})],
    inside [try ... except Exception: pass]. *)
Definition probe_events (i : nat) (p : probe_result) : list event :=
  match p with
  | ProbeReturns (Some t) => if String.eqb t "" then [] else [Update i [("title", VStr t)]]
  | ProbeReturns None => []
  | ProbeRaises _ => []
  end.

Section Run.

(** The extraction library on the i-th queued URL. *)
Variable ydl : nat -> string -> ydl_behaviour.

(** [calls i]: the number of [stop()] calls the GUI thread makes before the
    loop reads [self._stop] for item [i] (and after its read for item [i-1]). *)
Variable calls : nat -> nat.

(** One iteration of the loop body after the [if self._stop: break] check. *)
Definition process_item (i : nat) (r : row) : list event :=
  let b := ydl i (url r) in
  Update i [("status", VStr "Starting"); ("progress", VInt 0)] ::
  match ydl_init b with
  | Some e => [Update i (error_payload e)]
  | None =>
      probe_events i (ydl_probe b) ++
      flat_map (hook i) (ydl_progress b) ++
      match ydl_download b with
      | None => [Update i [("status", VStr "Done"); ("progress", VInt 100)]]
      | Some e => [Update i (error_payload e)]
      end
  end.

(** [for i, row in enumerate(self.rows): if self._stop: break; ...] followed by
    [self.sig_done.emit()]. *)
Fixpoint run_from (i : nat) (rs : list row) (w : DLWorker) : list event :=
  match rs with
  | [] => [Finished]
  | r :: rs' =>
      let w' := Nat.iter (calls i) stop w in
      if stop_flag w' then [Finished]
      else process_item i r ++ run_from (S i) rs' w'
  end.

(** [def run(self)] *)
Definition run (w : DLWorker) : list event := run_from 0 (rows w) w.

End Run.

(** ** Observations on an event sequence *)

(** The events of items [i], [i+1], ... processed in turn, none stopped. *)
Fixpoint process_all (ydl : nat -> string -> ydl_behaviour) (i : nat) (rs : list row)
  : list event :=
  match rs with
  | [] => []
  | r :: rs' => process_item ydl i r ++ process_all ydl (S i) rs'
  end.

(** A per-item terminal payload: status [Done] or [Error]. *)
Definition is_terminal (p : payload) : bool :=
  match dict_get "status" p with
  | Some (VStr "Done") | Some (VStr "Error") => true
  | _ => false
  end.

(** The item index of every terminal event, in emission order. *)
Definition terminal_rows (evs : list event) : list nat :=
  flat_map (fun e => match e with
                     | Update i p => if is_terminal p then [i] else []
                     | Finished => []
                     end) evs.

(** The item index of every per-item event, in emission order. *)
Definition update_rows (evs : list event) : list nat :=
  flat_map (fun e => match e with Update i _ => [i] | Finished => [] end) evs.

(** The number of run-finished signals. *)
Definition count_finished (evs : list event) : nat :=
  length (filter (fun e => match e with Finished => true | _ => false end) evs).

(** The percents of the [Downloading] events, in emission order. *)
Definition downloading_percents (evs : list event) : list Z :=
  flat_map (fun e => match e with
                     | Update _ p =>
                         match dict_get "status" p, dict_get "progress" p with
                         | Some (VStr "Downloading"), Some (VInt z) => [z]
                         | _, _ => []
                         end
                     | Finished => []
                     end) evs.

(** Adjacent elements related by [R]. *)
Fixpoint sorted_by {A : Type} (R : A -> A -> Prop) (l : list A) : Prop :=
  match l with
  | a :: ((b :: _) as t) => R a b /\ sorted_by R t
  | _ => True
  end.

(** A raw callback with status ["downloading"]. *)
Definition is_downloading (d : hook_dict) : bool := status_eqb (d_status d) "downloading".

(** The number of title events ([TitleResolved]) in an event sequence. *)
Definition count_titles (evs : list event) : nat :=
  length (filter (fun e => match e with
                           | Update _ p => match dict_get "title" p with
                                           | Some _ => true | None => false end
                           | Finished => false
                           end) evs).

(** The claim's reading of a callback: the downloaded count, [0] when
    absent, and the total it divides by, the actual total when known, else the
    estimated total, [None] when neither is known (absent or zero). *)
Definition got_count (d : hook_dict) : pynum :=
  match d_downloaded_bytes d with Some g => g | None => NInt 0 end.

(** A count that is known: present and nonzero. *)
Definition known_count (o : option pynum) : option pynum :=
  match o with
  | Some t => if Qeq_bool (num_val t) 0 then None else Some t
  | None => None
  end.

Definition known_total (d : hook_dict) : option pynum :=
  match known_count (d_total_bytes d) with
  | Some t => Some t
  | None => known_count (d_total_bytes_estimate d)
  end.

(** The claimed percent, written from the claim's words:
    [floor(downloaded_bytes * 100 / total_bytes)] computed exactly, [0] when
    no total is known. *)
Definition claimed_percent (d : hook_dict) : Z :=
  match known_total d with
  | Some t => Qfloor (num_val (got_count d) * 100 / num_val t)
  | None => 0
  end.

(** A raw [downloading] callback with the given [int] counts, no speed. *)
Definition downloading_dict (got : Z) (total estimate : option Z) : hook_dict :=
  {| d_status := Some "downloading"; d_total_bytes := option_map NInt total;
     d_total_bytes_estimate := option_map NInt estimate;
     d_downloaded_bytes := Some (NInt got); d_speed := None |}.

(** A raw [downloading] callback as yt-dlp sends it for a fragmented format:
    an [int] downloaded count and a [float] estimated total. *)
Definition estimated_dict (got : Z) (estimate : Q) : hook_dict :=
  {| d_status := Some "downloading"; d_total_bytes := None;
     d_total_bytes_estimate := Some (NFloat estimate);
     d_downloaded_bytes := Some (NInt got); d_speed := None |}.

(** The raw [finished] callback. *)
Definition finished_dict : hook_dict :=
  {| d_status := Some "finished"; d_total_bytes := None;
     d_total_bytes_estimate := None; d_downloaded_bytes := None; d_speed := None |}.

(** A [bv*+ba] download: the video stream (actual total 100 bytes) finishes,
    then the audio stream reports against an estimate of 50 bytes that it
    overruns. *)
Definition two_stream_ydl : nat -> string -> ydl_behaviour :=
  fun _ _ => {| ydl_init := None; ydl_probe := ProbeReturns (Some "clip");
                ydl_progress := [downloading_dict 100 (Some 100) None; finished_dict;
                                 downloading_dict 30 None (Some 50);
                                 downloading_dict 80 None (Some 50)];
                ydl_download := None |}.

(** A URL whose metadata probe returns an info dict without a title. *)
Definition untitled_ydl : nat -> string -> ydl_behaviour :=
  fun _ _ => {| ydl_init := None; ydl_probe := ProbeReturns None;
                ydl_progress := []; ydl_download := None |}.

(** [t] is a prefix of [s]. *)
Fixpoint is_prefix (t s : string) : bool :=
  match t, s with
  | EmptyString, _ => true
  | String a t', String b s' => Ascii.eqb a b && is_prefix t' s'
  | String _ _, EmptyString => false
  end.

(** [t in s] for Python strings. *)
Fixpoint substrb (t s : string) : bool :=
  is_prefix t s || match s with
                   | EmptyString => false
                   | String _ s' => substrb t s'
                   end.

(** [s] contains [t] as a substring. *)
Definition contains (s t : string) : Prop :=
  exists pre post, s = (pre ++ t ++ post)%string.

(** Three queued URLs: the first downloads, the second is geo-blocked, the
    third fails with another exception (and its title probe raises). *)
Definition demo_rows : list row := [{| url := "a" |}; {| url := "b" |}; {| url := "c" |}].

Definition demo_ydl : nat -> string -> ydl_behaviour :=
  fun i _ =>
    match i with
    | O => {| ydl_init := None; ydl_probe := ProbeReturns (Some "first");
              ydl_progress := [downloading_dict 20 (Some 100) None;
                               downloading_dict 70 (Some 100) None; finished_dict];
              ydl_download := None |}
    | 1%nat => {| ydl_init := None; ydl_probe := ProbeReturns (Some "second");
                  ydl_progress := [];
                  ydl_download := Some (DownloadError "This video is not available") |}
    | _ => {| ydl_init := None; ydl_probe := ProbeRaises (OtherException "timed out");
              ydl_progress := [downloading_dict 5 None (Some 40)];
              ydl_download := Some (OtherException "disk full") |}
    end.

(** ** The main window *)





(** An ASCII decimal digit and its value. *)
Definition digit_value (c : ascii) : option Z :=
  let n := nat_of_ascii c in
  if ((48 <=? n) && (n <=? 57))%nat then Some (Z.of_nat n - 48) else None.

(** The digits of an [int()] literal: at least one digit, single underscores
    allowed between digits; [after_digit] says the last character was one. *)
Fixpoint parse_digits (s : string) (acc : Z) (after_digit : bool) : option Z :=
  match s with
  | EmptyString => if after_digit then Some acc else None
  | String c s' =>
      match digit_value c with
      | Some d => parse_digits s' (acc * 10 + d) true
      | None =>
          if Ascii.eqb c "_"%char && after_digit then parse_digits s' acc false else None
      end
  end.

(** The whitespace [int()] skips around its literal, C's [isspace]:
    [\t \n \x0b \x0c \r] and the space (not the separators
    [\x1c]..[\x1f] [str.strip] removes). *)
Definition c_isspace (c : ascii) : bool :=
  let n := nat_of_ascii c in
  ((9 <=? n) && (n <=? 13) || (n =? 32))%nat.

Fixpoint c_lstrip (s : string) : string :=
  match s with
  | EmptyString => EmptyString
  | String c s' => if c_isspace c then c_lstrip s' else s
  end.

Fixpoint c_rstrip (s : string) : string :=
  match s with
  | EmptyString => EmptyString
  | String c s' =>
      let t := c_rstrip s' in
      if String.eqb t "" && c_isspace c then EmptyString else String c t
  end.

(** The number of decimal digits in a string. *)
Fixpoint count_digits (s : string) : nat :=
  match s with
  | EmptyString => O
  | String c s' => match digit_value c with
                   | Some _ => S (count_digits s')
                   | None => count_digits s'
                   end
  end.

(** [int(s)] on a string: surrounding whitespace, an optional sign, decimal
    digits; [None] is the [ValueError], raised also for a literal of more
    than [4300] digits ([sys.int_info.default_max_str_digits]). *)
Definition py_int_of_string (s : string) : option Z :=
  if (4300 <? count_digits s)%nat then None
  else
    match c_rstrip (c_lstrip s) with
    | String c t =>
        if Ascii.eqb c "-"%char then option_map Z.opp (parse_digits t 0 false)
        else if Ascii.eqb c "+"%char then parse_digits t 0 false
        else parse_digits (String c t) 0 false
    | EmptyString => None
    end.

(** [int(v)] on a value read back from the settings. *)
Definition py_int (v : pyval) : option Z :=
  match v with
  | VInt z => Some z
  | VStr s => py_int_of_string s
  end.

(** The items of the two combo boxes. *)
Definition max_res_items : list string := ["No cap"; "2160"; "1440"; "1080"; "720"].
Definition format_items : list string := ["MKV (safe)"; "MP4"].

(** [QComboBox.currentText()]: the current item, [""] at index [-1]. *)
Definition combo_text (items : list string) (idx : Z) : string :=
  if (0 <=? idx) && (idx <? Z.of_nat (length items)) then nth (Z.to_nat idx) items ""
  else "".

(** [QComboBox.setCurrentIndex(i)]: an index with no item selects nothing
    ([-1]); a Python [int] outside the C [int] range raises [OverflowError]
    ([None]). *)
Definition set_current_index (items : list string) (i : Z) : option Z :=
  if (- 2 ^ 31 <=? i) && (i <? 2 ^ 31) then
    Some (if (0 <=? i) && (i <? Z.of_nat (length items)) then i else -1)
  else None.

(** [QProgressBar.setValue(v)] on the default range [0..100]: a value out of
    range leaves the bar unchanged. *)
Definition progress_set_value (cur v : Z) : Z :=
  if (0 <=? v) && (v <=? 100) then v else cur.

(** A row of the table [QTableWidget(0, 4)]: URL, Title, Date Added and the
    progress bar.  The table has four columns, so the fifth header label
    ("Status") is not shown, [setItem(r, 4, ...)] does nothing and
    [item(row, 4)] is [None]. *)
Record table_row : Type := {
  t_url : string;
  t_title : string;
  t_date : string;
  t_progress : Z
}.

(** The state of [Main] the code reads and writes. *)
Record gui : Type := {
  table : list table_row;
  url_input : string;
  out_dir : string;
  max_res_index : Z;
  format_index : Z;
  btn_start_enabled : bool;
  btn_stop_enabled : bool;
  worker : option DLWorker;
  worker_running : bool
}.

Definition set_table (g : gui) (t : list table_row) : gui :=
  {| table := t; url_input := url_input g; out_dir := out_dir g;
     max_res_index := max_res_index g; format_index := format_index g;
     btn_start_enabled := btn_start_enabled g; btn_stop_enabled := btn_stop_enabled g;
     worker := worker g; worker_running := worker_running g |}.



(** The four steps of [_on_update] on one row.  A step that raises ([None]):
    PySide reports the exception and leaves the slot, keeping the updates made
    before it. *)

(** [if "title" in payload: self.table.item(row,1).setText(payload["title"])]:
    [setText] of a non-string raises [TypeError]. *)
Definition upd_title (p : payload) (r : table_row) : option table_row :=
  match dict_get "title" p with
  | None => Some r
  | Some (VStr t) => Some {| t_url := t_url r; t_title := t; t_date := t_date r;
                             t_progress := t_progress r |}
  | Some (VInt _) => None
  end.

(** [progress_bar.setValue(payload['progress'])]: a non-[int] raises
    [TypeError], an [int] outside the C [int] range [OverflowError]. *)
Definition upd_progress (p : payload) (r : table_row) : option table_row :=
  match dict_get "progress" p with
  | None => Some r
  | Some (VInt v) =>
      if (- 2 ^ 31 <=? v) && (v <? 2 ^ 31) then
        Some {| t_url := t_url r; t_title := t_title r; t_date := t_date r;
                t_progress := progress_set_value (t_progress r) v |}
      else None
  | Some (VStr _) => None
  end.

(** [if "status" in payload: self.table.item(row,4).setText(...)]: [item(row,4)]
    is [None], so [.setText] raises [AttributeError]. *)
Definition upd_status (p : payload) (r : table_row) : option table_row :=
  match dict_get "status" p with
  | None => Some r
  | Some _ => None
  end.

(** [if payload.get("error"): self.table.item(row,4).setText(...)]: raises
    [AttributeError] on a truthy error, as [upd_status]. *)
Definition upd_error (p : payload) (r : table_row) : option table_row :=
  match dict_get "error" p with
  | Some (VStr s) => if String.eqb s "" then Some r else None
  | Some (VInt z) => if z =? 0 then Some r else None
  | None => Some r
  end.

Definition on_update_row (p : payload) (r : table_row) : table_row :=
  match upd_title p r with
  | None => r
  | Some r1 =>
      match upd_progress p r1 with
      | None => r1
      | Some r2 =>
          match upd_status p r2 with
          | None => r2
          | Some r3 => match upd_error p r3 with None => r3 | Some r4 => r4 end
          end
      end
  end.

(** Replacing the [n]-th element; out of range the list is unchanged. *)
Fixpoint update_nth {A : Type} (n : nat) (f : A -> A) (l : list A) : list A :=
  match l, n with
  | [], _ => []
  | x :: l', O => f x :: l'
  | x :: l', S n' => x :: update_nth n' f l'
  end.

(** [def _on_update(self, row, payload)]: [if row>=self.table.rowCount(): return]. *)
Definition on_update (row : nat) (p : payload) (g : gui) : gui :=
  if (length (table g) <=? row)%nat then g
  else set_table g (update_nth row (on_update_row p) (table g)).

(** [def _on_done(self)] *)
Definition on_done (g : gui) : gui :=
  {| table := table g; url_input := url_input g; out_dir := out_dir g;
     max_res_index := max_res_index g; format_index := format_index g;
     btn_start_enabled := true; btn_stop_enabled := false;
     worker := worker g; worker_running := worker_running g |}.

(** The worker's signals, delivered to the GUI thread in emission order. *)
Definition handle_event (g : gui) (e : event) : gui :=
  match e with
  | Update i p => on_update i p g
  | Finished => on_done g
  end.

Definition deliver (evs : list event) (g : gui) : gui := fold_left handle_event evs g.

(** [max_res_val = None if max_res_text=="No cap" else int(max_res_text)];
    [None] is the [ValueError] of [int]. *)
Definition max_res_value (g : gui) : option (option Z) :=
  let text := combo_text max_res_items (max_res_index g) in
  if String.eqb text "No cap" then Some None
  else option_map Some (py_int_of_string text).

Section Start.

(** [pathlib]: [str(Path(d) / name)], and whether [Path(d).mkdir(parents=True,
    exist_ok=True)] raises. *)
Variable path_join : string -> string -> string.
Variable mkdir_fails : string -> bool.

(** [ydl_opts], one entry per option, [fmt] being [build_format(max_res_val)];
    the nested dictionaries as dotted keys, [True] as [1] and the one-element
    list as its element. *)
Definition start_opts (g : gui) (fmt : string) : payload :=
  [("format", VStr fmt);
   ("merge_output_format", VStr (if format_index g =? 0 then "mkv" else "mp4"));
   ("outtmpl.default", VStr (path_join (out_dir g) "%(title)s [%(id)s].%(ext)s"));
   ("quiet", VInt 1); ("geo_bypass", VInt 1);
   ("extractor_args.youtube.player_client", VStr "android");
   ("http_headers.User-Agent",
    VStr "Mozilla/5.0 (Windows NT 10.0; Win64; x64) AppleWebKit/537.36 (KHTML, like Gecko) Chrome/124.0 Safari/537.36");
   ("http_chunk_size", VInt (10 * 1024 * 1024)); ("retries", VInt 10);
   ("fragment_retries", VInt 10); ("continuedl", VInt 1);
   ("ignoreerrors", VStr "only_download")].

(** [def _start(self)].  Each early [return] and each exception ([mkdir],
    [int], [build_format]) comes before any change of state, so it leaves [g]
    as it is.  The FFmpeg warning box changes no state. *)
Definition start (g : gui) : gui :=
  if (length (table g) =? 0)%nat then g
  else if match worker g with Some _ => worker_running g | None => false end then g
  else if mkdir_fails (out_dir g) then g
  else
    match max_res_value g with
    | None => g
    | Some mrv =>
        match build_format mrv with
        | None => g
        | Some fmt =>
            {| table := table g; url_input := url_input g; out_dir := out_dir g;
               max_res_index := max_res_index g; format_index := format_index g;
               btn_start_enabled := false; btn_stop_enabled := true;
               worker := Some (DLWorker_init (map (fun r => {| url := t_url r |}) (table g))
                                             (start_opts g fmt));
               worker_running := true |}
        end
    end.

End Start.

(** [QSettings] as an association list, the latest write first. *)
Definition settings := list (string * pyval).

(** [combo.setCurrentIndex(int(v))]: [None] when [int] or the call raises. *)
Definition restore_index (items : list string) (v : pyval) : option Z :=
  match py_int v with
  | Some i => set_current_index items i
  | None => None
  end.

(** [settings.value(k, dflt)] *)
Definition settings_value (s : settings) (k : string) (dflt : pyval) : pyval :=
  match dict_get k s with Some v => v | None => dflt end.

(** [settings.setValue(k, v)] *)
Definition settings_set (s : settings) (k : string) (v : pyval) : settings :=
  (k, v) :: filter (fun e => negb (String.eqb (fst e) k)) s.

(** [def closeEvent(self, e)]: the preferences written. *)
Definition close_event (g : gui) (s : settings) : settings :=
  settings_set (settings_set (settings_set s "out_dir" (VStr (out_dir g)))
                             "max_res" (VInt (max_res_index g)))
               "fmt" (VInt (format_index g)).

(** [def _restore(self)], called from [__init__]: [None] when it raises
    ([setText] of a non-string, [int] of a non-number, an index beyond the C
    [int] range), which aborts the window's construction. *)
Definition restore (s : settings) (g : gui) : option gui :=
  match settings_value s "out_dir" (VStr (out_dir g)) with
  | VInt _ => None
  | VStr d =>
      match restore_index max_res_items (settings_value s "max_res" (VInt 0)),
            restore_index format_items (settings_value s "fmt" (VInt 0)) with
      | Some m, Some f =>
          Some {| table := table g; url_input := url_input g; out_dir := d;
                  max_res_index := m; format_index := f;
                  btn_start_enabled := btn_start_enabled g;
                  btn_stop_enabled := btn_stop_enabled g;
                  worker := worker g; worker_running := worker_running g |}
      | _, _ => None
      end
  end.

(** The row transformation of a sequence of events of one item. *)
Definition row_fold (evs : list event) (r : table_row) : table_row :=
  fold_left (fun r e => match e with Update _ p => on_update_row p r | Finished => r end) evs r.

(** The default row returned by [nth] out of range. *)
Definition empty_row : table_row :=
  {| t_url := ""; t_title := ""; t_date := ""; t_progress := 0 |}.

(** The exception raised in the worker's [try] block for item [b]: by
    [YoutubeDL(opts)], else by [ydl.download]. *)
Definition raised_in_try (b : ydl_behaviour) : option py_exception :=
  match ydl_init b with Some e => Some e | None => ydl_download b end.

(** A settings store that hands every value back as text, as an INI file
    read in a later session does. *)
Definition as_text (v : pyval) : pyval :=
  match v with VInt z => VStr (int_text z) | VStr t => VStr t end.

Definition settings_as_text (s : settings) : settings :=
  map (fun e => (fst e, as_text (snd e))) s.

(** A window with three queued URLs and a URL typed in the input box. *)
Definition demo_table : list table_row :=
  [{| t_url := "a"; t_title := ""; t_date := "2024-05-01 10:00"; t_progress := 0 |};
   {| t_url := "b"; t_title := ""; t_date := "2024-05-01 10:01"; t_progress := 0 |};
   {| t_url := "c"; t_title := ""; t_date := "2024-05-01 10:02"; t_progress := 0 |}].

Definition demo_gui : gui :=
  {| table := demo_table; url_input := "  https://youtu.be/abc  ";
     out_dir := "/home/user/Downloads"; max_res_index := 3; format_index := 0;
     btn_start_enabled := true; btn_stop_enabled := false;
     worker := None; worker_running := false |}.

(** The same window with only blanks in the input box. *)
Definition demo_gui_blank : gui :=
  {| table := demo_table; url_input := "   ";
     out_dir := "/home/user/Downloads"; max_res_index := 3; format_index := 0;
     btn_start_enabled := true; btn_stop_enabled := false;
     worker := None; worker_running := false |}.

(** ** Lemmas *)

(** *** Binary64 rounding *)

Lemma inject_Z_succ (f : Z) : (inject_Z (f + 1) == inject_Z f + 1)%Q.
Proof. rewrite inject_Z_plus. reflexivity. Qed.

Lemma rhe_bounds (x : Q) :
  (x - (1 # 2) <= inject_Z (round_half_even x) <= x + (1 # 2))%Q.
Proof.
  unfold round_half_even.
  pose proof (Qfloor_le x) as H1. pose proof (Qlt_floor x) as H2.
  rewrite inject_Z_succ in H2.
  set (f := Qfloor x) in *.
  destruct (Qeq_bool (x - inject_Z f) (1 # 2)) eqn:E.
  - apply Qeq_bool_iff in E.
    destruct (Z.even f); [| rewrite inject_Z_succ]; split; lra.
  - destruct (Qle_bool (x - inject_Z f) (1 # 2)) eqn:E2.
    + apply Qle_bool_iff in E2. split; lra.
    + assert (~ (x - inject_Z f <= 1 # 2))%Q as E3 by (intro H; apply Qle_bool_iff in H; congruence).
      apply Qnot_le_lt in E3. rewrite inject_Z_succ. split; lra.
Qed.

Lemma rhe_int (k : Z) : round_half_even (inject_Z k) = k.
Proof.
  unfold round_half_even. rewrite Qfloor_Z.
  replace (Qeq_bool (inject_Z k - inject_Z k) (1 # 2)) with false
    by (symmetry; apply not_true_iff_false; intros H; apply Qeq_bool_iff in H; lra).
  replace (Qle_bool (inject_Z k - inject_Z k) (1 # 2)) with true
    by (symmetry; apply Qle_bool_iff; lra).
  reflexivity.
Qed.

Lemma rhe_mono (x y : Q) : (x <= y)%Q -> round_half_even x <= round_half_even y.
Proof.
  intros Hxy. unfold round_half_even.
  pose proof (Qfloor_resp_le x y Hxy) as Hf.
  pose proof (Qfloor_le x) as Hx1. pose proof (Qlt_floor x) as Hx2.
  pose proof (Qfloor_le y) as Hy1. pose proof (Qlt_floor y) as Hy2.
  rewrite inject_Z_succ in Hx2, Hy2.
  set (fx := Qfloor x) in *. set (fy := Qfloor y) in *.
  assert (Hc : forall f r, (if Qeq_bool r (1 # 2) then (if Z.even f then f else f + 1)
                else if Qle_bool r (1 # 2) then f else f + 1) = f \/
                (if Qeq_bool r (1 # 2) then (if Z.even f then f else f + 1)
                else if Qle_bool r (1 # 2) then f else f + 1) = f + 1).
  { intros f r. destruct (Qeq_bool r (1 # 2)); [destruct (Z.even f); auto |].
    destruct (Qle_bool r (1 # 2)); auto. }
  destruct (Z.eq_dec fx fy) as [Heq | Hne].
  - (* same floor *)
    assert (Hr : (x - inject_Z fx <= y - inject_Z fy)%Q) by (rewrite Heq; lra).
    rewrite <- Heq in *. clear Heq.
    set (rx := (x - inject_Z fx)%Q) in *. set (ry := (y - inject_Z fx)%Q) in *.
    destruct (Qeq_bool rx (1 # 2)) eqn:Ex.
    + apply Qeq_bool_iff in Ex.
      destruct (Qeq_bool ry (1 # 2)) eqn:Ey; [lia |].
      destruct (Qle_bool ry (1 # 2)) eqn:Ely.
      * apply Qle_bool_iff in Ely. apply not_true_iff_false in Ey.
        exfalso. apply Ey. apply Qeq_bool_iff. lra.
      * destruct (Z.even fx); lia.
    + destruct (Qle_bool rx (1 # 2)) eqn:Elx.
      * destruct (Qeq_bool ry (1 # 2)); [destruct (Z.even fx); lia |].
        destruct (Qle_bool ry (1 # 2)); lia.
      * assert (~ (rx <= 1 # 2))%Q as Hgt by (intro H; apply Qle_bool_iff in H; congruence).
        apply Qnot_le_lt in Hgt.
        replace (Qeq_bool ry (1 # 2)) with false
          by (symmetry; apply not_true_iff_false; intros H; apply Qeq_bool_iff in H; lra).
        replace (Qle_bool ry (1 # 2)) with false
          by (symmetry; apply not_true_iff_false; intros H; apply Qle_bool_iff in H; lra).
        lia.
  - assert (fx < fy) by lia.
    destruct (Hc fx (x - inject_Z fx)%Q) as [-> | ->];
    destruct (Hc fy (y - inject_Z fy)%Q) as [-> | ->]; lia.
Qed.

Lemma rhe_comp (x y : Q) : (x == y)%Q -> round_half_even x = round_half_even y.
Proof.
  intros H. apply Z.le_antisymm; apply rhe_mono; rewrite H; apply Qle_refl.
Qed.

Lemma pow2_pos (s : Z) : (0 < pow2 s)%Q.
Proof. apply Qpower_0_lt. reflexivity. Qed.

Lemma pow2_add (a b : Z) : (pow2 (a + b) == pow2 a * pow2 b)%Q.
Proof. unfold pow2. apply Qpower_plus. discriminate. Qed.

Lemma pow2_le (a b : Z) : a <= b -> (pow2 a <= pow2 b)%Q.
Proof. intros H. apply Qpower_le_compat_l; [exact H | discriminate]. Qed.

Lemma pow2_lt (a b : Z) : a < b -> (pow2 a < pow2 b)%Q.
Proof. intros H. apply Qpower_lt_compat_l; [exact H | reflexivity]. Qed.

Lemma pow2_le_inv (a b : Z) : (pow2 a <= pow2 b)%Q -> a <= b.
Proof. intros H. apply (Qpower_le_compat_l_inv (2 # 1)); [exact H | reflexivity]. Qed.

Lemma pow2_lt_inv (a b : Z) : (pow2 a < pow2 b)%Q -> a < b.
Proof. intros H. apply (Qpower_lt_compat_l_inv (2 # 1)); [exact H | reflexivity]. Qed.

Lemma pow2_nat (s : Z) : 0 <= s -> (pow2 s == inject_Z (2 ^ s))%Q.
Proof. intros H. unfold pow2. rewrite Zpower_Qpower by exact H. reflexivity. Qed.

Lemma pow2_diff (m n : Z) : 0 <= m -> 0 <= n ->
  (pow2 (m - n) == (2 ^ m) # (Z.to_pos (2 ^ n)))%Q.
Proof.
  intros Hm Hn. rewrite Qmake_Qdiv, Z2Pos.id by (apply Z.pow_pos_nonneg; lia).
  unfold Z.sub. rewrite pow2_add. unfold pow2 at 2. rewrite Qpower_opp.
  fold (pow2 n). rewrite !pow2_nat by lia. unfold Qdiv. reflexivity.
Qed.

Lemma Qlog2_floor_spec (q : Q) : (0 < q)%Q ->
  (pow2 (Qlog2_floor q) <= q < pow2 (Qlog2_floor q + 1))%Q.
Proof.
  intros Hq. destruct q as [a b].
  assert (Ha : 0 < a) by (unfold Qlt in Hq; cbn in Hq; lia).
  unfold Qlog2_floor. cbn [Qnum Qden].
  destruct (Z.log2_spec a Ha) as [Ha1 Ha2].
  destruct (Z.log2_spec (Zpos b) ltac:(lia)) as [Hb1 Hb2].
  pose proof (Z.log2_nonneg a) as Hla. pose proof (Z.log2_nonneg (Zpos b)) as Hlb.
  set (la := Z.log2 a) in *. set (lb := Z.log2 (Zpos b)) in *.
  rewrite Z.pow_succ_r in Ha2, Hb2 by lia.
  assert (Hup : ((a # b) < pow2 (la - lb + 1))%Q).
  { replace (la - lb + 1) with (Z.succ la - lb) by lia.
    rewrite pow2_diff by lia. unfold Qlt. cbn [Qnum Qden].
    rewrite Z2Pos.id by (apply Z.pow_pos_nonneg; lia).
    rewrite Z.pow_succ_r by lia. nia. }
  assert (Hlo : (pow2 (la - lb - 1) <= (a # b))%Q).
  { replace (la - lb - 1) with (la - Z.succ lb) by lia.
    rewrite pow2_diff by lia. unfold Qle. cbn [Qnum Qden].
    rewrite Z2Pos.id by (apply Z.pow_pos_nonneg; lia).
    rewrite Z.pow_succ_r by lia. nia. }
  destruct (Qle_bool (pow2 (la - lb)) (a # b)) eqn:E.
  - apply Qle_bool_iff in E. split; assumption.
  - assert (~ (pow2 (la - lb) <= (a # b)))%Q as E' by (intro H0; apply Qle_bool_iff in H0; congruence).
    apply Qnot_le_lt in E'. split; [exact Hlo |].
    replace (la - lb - 1 + 1) with (la - lb) by lia. exact E'.
Qed.

Lemma Qlog2_floor_unique (q : Q) (e : Z) :
  (pow2 e <= q < pow2 (e + 1))%Q -> Qlog2_floor q = e.
Proof.
  intros [H1 H2].
  assert (Hq : (0 < q)%Q) by (eapply Qlt_le_trans; [apply pow2_pos | exact H1]).
  destruct (Qlog2_floor_spec q Hq) as [H3 H4].
  assert (e < Qlog2_floor q + 1) by (apply pow2_lt_inv; eapply Qle_lt_trans; eauto).
  assert (Qlog2_floor q < e + 1) by (apply pow2_lt_inv; eapply Qle_lt_trans; eauto).
  lia.
Qed.

Lemma Qlog2_floor_mono (x y : Q) : (0 < x)%Q -> (x <= y)%Q -> Qlog2_floor x <= Qlog2_floor y.
Proof.
  intros Hx Hxy.
  destruct (Qlog2_floor_spec x Hx) as [H1 _].
  destruct (Qlog2_floor_spec y ltac:(lra)) as [_ H4].
  assert (Qlog2_floor x < Qlog2_floor y + 1)
    by (apply pow2_lt_inv; eapply Qle_lt_trans; [exact H1 | eapply Qle_lt_trans; eauto]).
  lia.
Qed.

Lemma round_at_mono (s : Z) (x y : Q) : (x <= y)%Q -> (round_at s x <= round_at s y)%Q.
Proof.
  intros H. unfold round_at. pose proof (pow2_pos s).
  apply Qmult_le_compat_r; [| lra]. rewrite <- Zle_Qle. apply rhe_mono.
  apply Qmult_le_compat_r; [exact H |]. apply Qinv_le_0_compat; lra.
Qed.

Lemma round_at_exact (s k : Z) : (round_at s (inject_Z k * pow2 s) == inject_Z k * pow2 s)%Q.
Proof.
  unfold round_at. pose proof (pow2_pos s).
  assert (E : (inject_Z k * pow2 s / pow2 s == inject_Z k)%Q) by (field; lra).
  rewrite (rhe_comp _ _ E), rhe_int. reflexivity.
Qed.

Lemma round_at_bounds (s : Z) (x : Q) :
  (x - pow2 s * (1 # 2) <= round_at s x <= x + pow2 s * (1 # 2))%Q.
Proof.
  unfold round_at. pose proof (pow2_pos s) as Hp.
  destruct (rhe_bounds (x / pow2 s)) as [H1 H2].
  set (n := inject_Z (round_half_even (x / pow2 s))) in *.
  assert (Ex : (x == x / pow2 s * pow2 s)%Q) by (field; lra).
  set (m := (x / pow2 s)%Q) in *.
  split; rewrite Ex at 1.
  - assert ((m - (1 # 2)) * pow2 s <= n * pow2 s)%Q by (apply Qmult_le_compat_r; lra).
    lra.
  - assert (n * pow2 s <= (m + (1 # 2)) * pow2 s)%Q by (apply Qmult_le_compat_r; lra).
    lra.
Qed.

Lemma round_at_comp (s : Z) (x y : Q) : (x == y)%Q -> round_at s x = round_at s y.
Proof.
  intros H. unfold round_at. f_equal. f_equal. apply rhe_comp. rewrite H. reflexivity.
Qed.

Lemma Qlog2_floor_comp (x y : Q) : (0 < x)%Q -> (x == y)%Q -> Qlog2_floor x = Qlog2_floor y.
Proof.
  intros Hx H. symmetry. apply Qlog2_floor_unique. rewrite <- H. apply Qlog2_floor_spec, Hx.
Qed.

Lemma pow2_m53 : (pow2 (-53) == u53)%Q.
Proof. reflexivity. Qed.

Lemma round_pos_rel (x : Q) : (0 < x)%Q ->
  (x - x * u53 <= round_pos x <= x + x * u53)%Q.
Proof.
  intros Hx. unfold round_pos.
  destruct (Qlog2_floor_spec x Hx) as [H1 _].
  set (E := Qlog2_floor x) in *.
  destruct (round_at_bounds (E - 52) x) as [B1 B2].
  assert (Hs : (pow2 (E - 52) * (1 # 2) == pow2 E * u53)%Q).
  { rewrite <- pow2_m53. change (1 # 2)%Q with (pow2 (-1)).
    rewrite <- !pow2_add. replace (E - 52 + -1) with (E + -53) by lia. reflexivity. }
  assert (H2 : (pow2 E * u53 <= x * u53)%Q) by (apply Qmult_le_compat_r; [exact H1 | discriminate]).
  split; lra.
Qed.

Lemma round_pos_ge (x : Q) : (0 < x)%Q -> (pow2 (Qlog2_floor x) <= round_pos x)%Q.
Proof.
  intros Hx. unfold round_pos.
  destruct (Qlog2_floor_spec x Hx) as [H1 _].
  set (E := Qlog2_floor x) in *.
  assert (Ep : (pow2 E == inject_Z (2 ^ 52) * pow2 (E - 52))%Q).
  { rewrite <- pow2_nat by lia. rewrite <- pow2_add. replace (52 + (E - 52)) with E by lia. reflexivity. }
  rewrite Ep in H1 |- *. rewrite <- (round_at_exact (E - 52) (2 ^ 52)).
  apply round_at_mono, H1.
Qed.

Lemma round_pos_pos (x : Q) : (0 < x)%Q -> (0 < round_pos x)%Q.
Proof.
  intros Hx. eapply Qlt_le_trans; [apply pow2_pos | apply round_pos_ge, Hx].
Qed.

Lemma round_pos_le_next (x : Q) : (0 < x)%Q -> (round_pos x <= pow2 (Qlog2_floor x + 1))%Q.
Proof.
  intros Hx. unfold round_pos.
  destruct (Qlog2_floor_spec x Hx) as [_ H1].
  set (E := Qlog2_floor x) in *.
  assert (Ep : (pow2 (E + 1) == inject_Z (2 ^ 53) * pow2 (E - 52))%Q).
  { rewrite <- pow2_nat by lia. rewrite <- pow2_add. replace (53 + (E - 52)) with (E + 1) by lia. reflexivity. }
  rewrite Ep in H1 |- *. rewrite <- (round_at_exact (E - 52) (2 ^ 53)).
  apply round_at_mono, Qlt_le_weak, H1.
Qed.

Lemma round_pos_mono (x y : Q) : (0 < x)%Q -> (x <= y)%Q -> (round_pos x <= round_pos y)%Q.
Proof.
  intros Hx Hxy.
  pose proof (Qlog2_floor_mono x y Hx Hxy) as Hm.
  destruct (Z.eq_dec (Qlog2_floor x) (Qlog2_floor y)) as [He | Hne].
  - unfold round_pos. rewrite He. apply round_at_mono, Hxy.
  - eapply Qle_trans; [apply round_pos_le_next, Hx |].
    eapply Qle_trans; [apply pow2_le; instantiate (1 := Qlog2_floor y); lia |].
    apply round_pos_ge. lra.
Qed.

Lemma round_double_pos (x : Q) : (0 < x)%Q -> round_double x = round_pos x.
Proof.
  intros Hx. unfold round_double.
  replace (Qle_bool x 0) with false; [reflexivity |].
  symmetry. apply not_true_iff_false. intros H. apply Qle_bool_iff in H. lra.
Qed.

Lemma round_double_zero (x : Q) : (x == 0)%Q -> round_double x = 0%Q.
Proof.
  intros Hx. unfold round_double.
  replace (Qle_bool x 0) with true by (symmetry; apply Qle_bool_iff; lra).
  replace (Qeq_bool x 0) with true by (symmetry; apply Qeq_bool_iff; exact Hx).
  reflexivity.
Qed.

Lemma round_double_neg (x : Q) : (x < 0)%Q -> round_double x = (- round_pos (- x))%Q.
Proof.
  intros Hx. unfold round_double.
  replace (Qle_bool x 0) with true by (symmetry; apply Qle_bool_iff; lra).
  replace (Qeq_bool x 0) with false; [reflexivity |].
  symmetry. apply not_true_iff_false. intros H. apply Qeq_bool_iff in H. lra.
Qed.

Lemma round_double_mono (x y : Q) : (x <= y)%Q -> (round_double x <= round_double y)%Q.
Proof.
  intros Hxy.
  destruct (Qlt_le_dec 0 x) as [Hx | Hx].
  - rewrite !round_double_pos by lra. apply round_pos_mono; assumption.
  - assert (Hrx : (round_double x <= 0)%Q).
    { destruct (Qlt_le_dec x 0) as [Hx' | Hx'].
      - rewrite round_double_neg by exact Hx'. pose proof (round_pos_pos (- x)). lra.
      - rewrite round_double_zero by lra. apply Qle_refl. }
    destruct (Qlt_le_dec 0 y) as [Hy | Hy].
    + rewrite (round_double_pos y Hy). pose proof (round_pos_pos y Hy). lra.
    + destruct (Qlt_le_dec y 0) as [Hy' | Hy'].
      * rewrite !round_double_neg by lra.
        pose proof (round_pos_mono (- y) (- x) ltac:(lra) ltac:(lra)). lra.
      * rewrite (round_double_zero y) by lra. exact Hrx.
Qed.

Lemma round_double_comp (x y : Q) : (x == y)%Q -> (round_double x == round_double y)%Q.
Proof.
  intros H. apply Qle_antisym; apply round_double_mono; rewrite H; apply Qle_refl.
Qed.

Lemma round_double_int (k : Z) : 0 <= k < 2 ^ 53 -> (round_double (inject_Z k) == inject_Z k)%Q.
Proof.
  intros [Hk0 Hk1].
  destruct (Z.eq_dec k 0) as [-> | Hk]; [rewrite round_double_zero; reflexivity |].
  assert (Hpos : (0 < inject_Z k)%Q) by (change 0%Q with (inject_Z 0); rewrite <- Zlt_Qlt; lia).
  rewrite round_double_pos by exact Hpos. unfold round_pos.
  destruct (Qlog2_floor_spec _ Hpos) as [H1 _].
  set (E := Qlog2_floor (inject_Z k)) in *.
  assert (HE : E < 53).
  { apply pow2_lt_inv. eapply Qle_lt_trans; [exact H1 |].
    rewrite pow2_nat by lia. rewrite <- Zlt_Qlt. exact Hk1. }
  assert (Ek : (inject_Z k == inject_Z (k * 2 ^ (52 - E)) * pow2 (E - 52))%Q).
  { rewrite inject_Z_mult, <- pow2_nat by lia.
    rewrite <- Qmult_assoc, <- pow2_add. replace (52 - E + (E - 52)) with 0 by lia.
    change (pow2 0) with 1%Q. ring. }
  rewrite (round_at_comp _ _ _ Ek), round_at_exact. symmetry. exact Ek.
Qed.

Lemma round_double_rel (x : Q) : (0 <= x)%Q ->
  (x - x * u53 <= round_double x <= x + x * u53)%Q.
Proof.
  intros Hx. destruct (Qlt_le_dec 0 x) as [Hp | Hz].
  - rewrite round_double_pos by exact Hp. apply round_pos_rel, Hp.
  - rewrite round_double_zero by lra. unfold u53. split; lra.
Qed.

Lemma round_double_nonneg (x : Q) : (0 <= x)%Q -> (0 <= round_double x)%Q.
Proof.
  intros Hx. rewrite <- (round_double_zero 0) by reflexivity. apply round_double_mono, Hx.
Qed.

Lemma py_trunc_nonneg (x : Q) : (0 <= x)%Q -> py_trunc x = Qfloor x.
Proof.
  intros Hx. unfold py_trunc. replace (Qle_bool 0 x) with true by (symmetry; apply Qle_bool_iff, Hx).
  reflexivity.
Qed.

Lemma py_trunc_mono (x y : Q) : (x <= y)%Q -> py_trunc x <= py_trunc y.
Proof.
  intros Hxy. unfold py_trunc.
  destruct (Qle_bool 0 x) eqn:Ex, (Qle_bool 0 y) eqn:Ey.
  - apply Qfloor_resp_le, Hxy.
  - apply Qle_bool_iff in Ex. apply not_true_iff_false in Ey.
    exfalso. apply Ey. apply Qle_bool_iff. lra.
  - apply not_true_iff_false in Ex. assert (~ (0 <= x))%Q as Hx by (intros H; apply Ex, Qle_bool_iff, H).
    apply Qnot_le_lt in Hx. apply Qle_bool_iff in Ey.
    pose proof (Qfloor_resp_le 0 (- x) ltac:(lra)). pose proof (Qfloor_resp_le 0 y Ey).
    change (Qfloor 0) with 0 in *. lia.
  - pose proof (Qfloor_resp_le (- y) (- x) ltac:(lra)). lia.
Qed.

Lemma py_trunc_comp (x y : Q) : (x == y)%Q -> py_trunc x = py_trunc y.
Proof.
  intros H. apply Z.le_antisymm; apply py_trunc_mono; rewrite H; apply Qle_refl.
Qed.

(** *** Lists and the worker *)


Lemma sorted_by_app {A : Type} (R : A -> A -> Prop) (l1 l2 : list A) :
  sorted_by R l1 -> sorted_by R l2 ->
  (forall a b, In a l1 -> In b l2 -> R a b) -> sorted_by R (l1 ++ l2).
Proof.
  induction l1 as [| a l1' IH]; intros H1 H2 Hab; simpl; auto.
  destruct l1' as [| a' l1''].
  - simpl. destruct l2 as [| b l2]; auto. split; auto. apply Hab; simpl; auto.
  - destruct H1 as [Ha H1]. split; auto.
    apply IH; auto. intros x y Hx Hy. apply Hab; simpl in *; auto.
Qed.

Lemma sorted_by_const (i : nat) (l : list nat) :
  Forall (eq i) l -> sorted_by le l.
Proof.
  induction l as [| a l' IH]; intros H; simpl; auto.
  inversion H as [| ? ? Ha Ht]; subst.
  destruct l' as [| b l'']; auto.
  inversion Ht as [| ? ? Hb ?]; subst.
  split; [lia | auto].
Qed.

Lemma hook_rows (i : nat) (d : hook_dict) :
  terminal_rows (hook i d) = [] /\ Forall (eq i) (update_rows (hook i d)) /\
  ~ In Finished (hook i d).
Proof.
  unfold hook.
  destruct (status_eqb _ "downloading"); [| destruct (status_eqb _ "finished")];
    simpl; intuition (try discriminate); repeat constructor.
Qed.

Lemma hooks_rows (i : nat) (ds : list hook_dict) :
  terminal_rows (flat_map (hook i) ds) = [] /\
  Forall (eq i) (update_rows (flat_map (hook i) ds)) /\
  ~ In Finished (flat_map (hook i) ds).
Proof.
  induction ds as [| d ds IH]; simpl; [intuition constructor |].
  destruct (hook_rows i d) as (T1 & U1 & F1). destruct IH as (T2 & U2 & F2).
  unfold terminal_rows, update_rows in *. rewrite !flat_map_app, T1, T2.
  split; [reflexivity | split].
  - apply Forall_app; auto.
  - rewrite in_app_iff. tauto.
Qed.

Lemma probe_rows (i : nat) (p : probe_result) :
  terminal_rows (probe_events i p) = [] /\
  Forall (eq i) (update_rows (probe_events i p)) /\
  ~ In Finished (probe_events i p).
Proof.
  destruct p as [e | [t |]]; simpl; [intuition constructor | | intuition constructor].
  destruct (String.eqb t ""); simpl; intuition (try discriminate); repeat constructor.
Qed.

Lemma error_payload_terminal (e : py_exception) : is_terminal (error_payload e) = true.
Proof. destruct e; reflexivity. Qed.

Lemma process_item_rows ydl (i : nat) (r : row) :
  terminal_rows (process_item ydl i r) = [i] /\
  Forall (eq i) (update_rows (process_item ydl i r)) /\
  ~ In Finished (process_item ydl i r).
Proof.
  unfold process_item. destruct (ydl i (url r)) as [init p ds dl]; simpl.
  destruct init as [e |].
  - unfold terminal_rows, update_rows; simpl. rewrite error_payload_terminal.
    split; [reflexivity | split; [repeat constructor |]].
    intros [H | [H | H]]; [discriminate | discriminate | exact H].
  - destruct (probe_rows i p) as (T1 & U1 & F1).
    destruct (hooks_rows i ds) as (T2 & U2 & F2).
    assert (T3 : forall last, last = match dl with
                 | None => [Update i [("status", VStr "Done"); ("progress", VInt 100)]]
                 | Some e => [Update i (error_payload e)] end ->
                 terminal_rows last = [i] /\ Forall (eq i) (update_rows last) /\
                 ~ In Finished last).
    { intros last ->. unfold terminal_rows, update_rows.
      destruct dl as [e |]; simpl; [rewrite error_payload_terminal |];
        (split; [reflexivity | split; [repeat constructor |]]);
        intros [H | H]; [discriminate | exact H | discriminate | exact H]. }
    destruct (T3 _ eq_refl) as (T4 & U4 & F4). clear T3.
    revert T4 U4 F4.
    generalize (match dl with
                | None => [Update i [("status", VStr "Done"); ("progress", VInt 100)]]
                | Some e => [Update i (error_payload e)] end).
    intros last T4 U4 F4.
    unfold terminal_rows, update_rows in *. simpl.
    rewrite !flat_map_app, T1, T2, T4. split; [reflexivity | split].
    + constructor; [reflexivity |].
      apply Forall_app; split; [| apply Forall_app; split]; auto.
    + intros [H | H]; [discriminate |]. rewrite !in_app_iff in H. tauto.
Qed.

Lemma process_all_rows ydl (i : nat) (rs : list row) :
  terminal_rows (process_all ydl i rs) = seq i (length rs) /\
  Forall (le i) (update_rows (process_all ydl i rs)) /\
  sorted_by le (update_rows (process_all ydl i rs)) /\
  ~ In Finished (process_all ydl i rs).
Proof.
  revert i. induction rs as [| r rs IH]; intros i;
    cbn [process_all length seq]; [simpl; intuition constructor |].
  destruct (process_item_rows ydl i r) as (T1 & U1 & F1).
  destruct (IH (S i)) as (T2 & U2 & S2 & F2).
  unfold terminal_rows, update_rows in *. rewrite !flat_map_app, T1, T2.
  split; [reflexivity | split; [| split]].
  - apply Forall_app; split.
    + eapply Forall_impl; [| exact U1]. intros a Ha; lia.
    + eapply Forall_impl; [| exact U2]. intros a Ha; lia.
  - apply sorted_by_app; auto.
    + eapply sorted_by_const; eauto.
    + intros a c Ha Hc. rewrite Forall_forall in U1, U2.
      specialize (U1 a Ha). specialize (U2 c Hc). lia.
  - rewrite in_app_iff. tauto.
Qed.

Lemma stop_flag_iter (n : nat) (w : DLWorker) :
  stop_flag (Nat.iter n stop w) = stop_flag w || negb (Nat.eqb n 0).
Proof. destruct n; simpl; destruct (stop_flag w); reflexivity. Qed.

Lemma iter_stop_rows (n : nat) (w : DLWorker) :
  rows (Nat.iter n stop w) = rows w /\ opts (Nat.iter n stop w) = opts w.
Proof. induction n; simpl; auto. Qed.

(** With no stop call up to the read for item [i + k], the first [k] items run
    unchanged; a call before that read ends the run there. *)
Lemma run_from_prefix ydl calls (k i : nat) (rs : list row) (w : DLWorker) :
  stop_flag w = false ->
  (forall j, i <= j < i + k -> calls j = 0)%nat ->
  (k < length rs -> 0 < calls (i + k))%nat ->
  (k <= length rs)%nat ->
  run_from ydl calls i rs w = process_all ydl i (firstn k rs) ++ [Finished].
Proof.
  revert i k w. induction rs as [| r rs IH]; intros i k w Hw Hz Hk Hle.
  - simpl in Hle. assert (k = 0)%nat by lia. subst. reflexivity.
  - destruct k as [| k].
    + simpl. rewrite Nat.add_0_r in Hk. simpl in Hk.
      rewrite stop_flag_iter. destruct (calls i); [lia |]. simpl.
      rewrite orb_true_r. reflexivity.
    + cbn [run_from firstn process_all]. rewrite (Hz i) by lia. change (Nat.iter 0 stop w) with w. rewrite Hw.
      rewrite <- app_assoc. f_equal.
      apply IH; auto.
      * intros j Hj. apply Hz. lia.
      * intros Hl. replace (S i + k)%nat with (i + S k)%nat by lia. apply Hk. simpl; lia.
      * simpl in Hle; lia.
Qed.

Lemma process_all_rows_lt ydl (i : nat) (rs : list row) :
  Forall (fun j => j < i + length rs)%nat (update_rows (process_all ydl i rs)).
Proof.
  revert i. induction rs as [| r rs IH]; intros i; cbn [process_all length]; [constructor |].
  destruct (process_item_rows ydl i r) as (_ & U1 & _).
  unfold update_rows in *. rewrite flat_map_app. apply Forall_app; split.
  - eapply Forall_impl; [| exact U1]. intros a Ha; simpl in *; lia.
  - eapply Forall_impl; [| exact (IH (S i))]. intros a Ha; simpl in *; lia.
Qed.

Lemma count_finished_last (pre : list event) :
  ~ In Finished pre -> count_finished (pre ++ [Finished]) = 1%nat.
Proof.
  unfold count_finished. induction pre as [| e pre IH]; intros H; [reflexivity |].
  destruct e as [i p |]; simpl in *; [| tauto].
  apply IH. tauto.
Qed.

Lemma stop_stop (w : DLWorker) : stop (stop w) = stop w.
Proof. reflexivity. Qed.

Lemma iter_stop_succ (n : nat) (w : DLWorker) : Nat.iter (S n) stop w = stop w.
Proof. induction n as [| n IH]; [reflexivity |]. simpl in *. rewrite IH. reflexivity. Qed.

Lemma iter_stop_min1 (n : nat) (w : DLWorker) :
  Nat.iter n stop w = Nat.iter (Nat.min 1 n) stop w.
Proof. destruct n as [| n]; [reflexivity |]. rewrite iter_stop_succ. reflexivity. Qed.

Lemma run_from_min1 ydl calls (i : nat) (rs : list row) (w : DLWorker) :
  run_from ydl calls i rs w = run_from ydl (fun j => Nat.min 1 (calls j)) i rs w.
Proof.
  revert i w. induction rs as [| r rs IH]; intros i w; [reflexivity |].
  cbn [run_from]. rewrite <- iter_stop_min1.
  destruct (stop_flag (Nat.iter (calls i) stop w)); [reflexivity |].
  rewrite IH. reflexivity.
Qed.

(** ** Claims about the run loop *)

(** C1: with no stop request during the run, every queued item gets exactly
    one terminal event ([Done] or [Error]), in enqueue order; the item index
    never decreases along the emitted events, so every event of item [i]
    precedes every event of item [i+1]; and exactly one run-finished signal is
    emitted, as the last event. *)
Theorem run_without_stop_completes ydl calls (rs : list row) (o : payload)
  (Hcalls : forall j, calls j = 0%nat) :
  let evs := run ydl calls (DLWorker_init rs o) in
  terminal_rows evs = seq 0 (length rs) /\
  sorted_by le (update_rows evs) /\
  count_finished evs = 1%nat /\
  (exists pre, evs = pre ++ [Finished] /\ ~ In Finished pre).
Proof.
  cbv zeta. unfold run, DLWorker_init. cbn [rows].
  rewrite (run_from_prefix ydl calls (length rs)); auto; [| intros; lia].
  rewrite firstn_all.
  destruct (process_all_rows ydl 0 rs) as (T & _ & S & F).
  unfold terminal_rows, update_rows in *. rewrite !flat_map_app, T.
  split; [simpl; apply app_nil_r | split; [| split]].
  - simpl. rewrite app_nil_r. exact S.
  - apply count_finished_last. exact F.
  - eexists; split; [reflexivity | exact F].
Qed.

(** C2: when the first stop request is issued while item [k-1] is in flight
    (before the loop's check for item [k]; before the run for [k = 0]),
    items [0..k-1] run to completion exactly as without a stop (the flag is
    not read inside an item), each reaching its terminal event; items
    [k..N-1] emit no event; exactly one run-finished signal ends the run. *)
Theorem run_stop_before_item ydl calls (rs : list row) (o : payload) (k : nat)
  (Hk : (k <= length rs)%nat)
  (Hbefore : forall j, (j < k)%nat -> calls j = 0%nat)
  (Hstop : (0 < calls k)%nat) :
  let evs := run ydl calls (DLWorker_init rs o) in
  evs = process_all ydl 0 (firstn k rs) ++ [Finished] /\
  terminal_rows evs = seq 0 k /\
  Forall (fun j => j < k)%nat (update_rows evs) /\
  count_finished evs = 1%nat /\
  (exists pre, evs = pre ++ [Finished] /\ ~ In Finished pre).
Proof.
  cbv zeta. unfold run, DLWorker_init. cbn [rows].
  rewrite (run_from_prefix ydl calls k); auto; [| intros j Hj; apply Hbefore; lia].
  assert (Hl : length (firstn k rs) = k) by (rewrite length_firstn; lia).
  destruct (process_all_rows ydl 0 (firstn k rs)) as (T & _ & _ & F).
  pose proof (process_all_rows_lt ydl 0 (firstn k rs)) as L.
  rewrite Hl in T, L.
  split; [reflexivity | split; [| split; [| split]]].
  - unfold terminal_rows in *. rewrite flat_map_app, T. simpl. apply app_nil_r.
  - unfold update_rows in *. rewrite flat_map_app. simpl. rewrite app_nil_r. exact L.
  - apply count_finished_last. exact F.
  - eexists; split; [reflexivity | exact F].
Qed.

(** C3: every item starts with [Starting] at percent 0 and ends with one
    terminal event, decided by the exception raised in the [try] block (by
    [YoutubeDL(opts)] or by [ydl.download]): none gives [Done] at percent 100,
    a [DownloadError] gives [Error] with ["Download failed: " + str(e)], any
    other exception [Error] with ["An unexpected error occurred: " + str(e)];
    no terminal event comes in between.  Whatever the outcomes, a run with no
    stop request processes every item in turn. *)
Theorem item_events_outcome ydl calls (rs : list row) (o : payload)
  (Hcalls : forall j, calls j = 0%nat) :
  run ydl calls (DLWorker_init rs o) = process_all ydl 0 rs ++ [Finished] /\
  (forall (i : nat) (r : row),
     let b := ydl i (url r) in
     let raised := match ydl_init b with Some e => Some e | None => ydl_download b end in
     exists mid,
       process_item ydl i r =
         Update i [("status", VStr "Starting"); ("progress", VInt 0)] :: mid ++
         [Update i match raised with
                   | None => [("status", VStr "Done"); ("progress", VInt 100)]
                   | Some (DownloadError m) =>
                       [("status", VStr "Error");
                        ("error", VStr ("Download failed: " ++ m)%string)]
                   | Some (OtherException m) =>
                       [("status", VStr "Error");
                        ("error", VStr ("An unexpected error occurred: " ++ m)%string)]
                   end] /\
       terminal_rows mid = []).
Proof.
  split.
  - unfold run, DLWorker_init. cbn [rows].
    rewrite (run_from_prefix ydl calls (length rs)); auto; [| intros; lia].
    rewrite firstn_all. reflexivity.
  - intros i r. cbv zeta. unfold process_item.
    destruct (ydl i (url r)) as [init p ds dl]. cbn [ydl_init ydl_probe ydl_progress ydl_download].
    destruct init as [e |].
    + exists []. split; [destruct e; reflexivity | reflexivity].
    + exists (probe_events i p ++ flat_map (hook i) ds).
      destruct (probe_rows i p) as (T1 & _ & _).
      destruct (hooks_rows i ds) as (T2 & _ & _).
      split.
      * rewrite <- app_assoc. destruct dl as [[m | m] |]; reflexivity.
      * unfold terminal_rows in *. rewrite flat_map_app, T1, T2. reflexivity.
Qed.

(** C9: [stop()] is idempotent: calling it again, or any positive number of
    times, gives the state of one call; it sets only the flag (rows and
    options unchanged); the flag after [n] calls is the old flag or [n > 0],
    so once true it stays true; and a run observes only whether some call
    happened before each check, not how many, so repeated calls change
    nothing.  The flag is read only at item boundaries: [process_item] does
    not depend on the worker state at all. *)
Theorem stop_idempotent (w : DLWorker) :
  stop (stop w) = stop w /\
  (forall n, Nat.iter (S n) stop w = stop w) /\
  rows (stop w) = rows w /\ opts (stop w) = opts w /\
  (forall n, stop_flag (Nat.iter n stop w) = stop_flag w || negb (Nat.eqb n 0)) /\
  (forall ydl calls, run ydl calls w = run ydl (fun j => Nat.min 1 (calls j)) w).
Proof.
  split; [apply stop_stop | split; [intros n; apply iter_stop_succ | split; [| split; [| split]]]].
  - reflexivity.
  - reflexivity.
  - intros n. apply stop_flag_iter.
  - intros ydl calls. apply run_from_min1.
Qed.

Lemma downloading_percents_app (l1 l2 : list event) :
  downloading_percents (l1 ++ l2) = downloading_percents l1 ++ downloading_percents l2.
Proof. unfold downloading_percents. apply flat_map_app. Qed.

Lemma downloading_percents_hook (i : nat) (d : hook_dict) :
  downloading_percents (hook i d) = if is_downloading d then [hook_pct d] else [].
Proof.
  unfold hook, is_downloading.
  destruct (status_eqb (d_status d) "downloading"); [reflexivity |].
  destruct (status_eqb (d_status d) "finished"); reflexivity.
Qed.

Lemma downloading_percents_hooks (i : nat) (ds : list hook_dict) :
  downloading_percents (flat_map (hook i) ds) = map hook_pct (filter is_downloading ds).
Proof.
  induction ds as [| d ds IH]; [reflexivity |].
  cbn [flat_map]. rewrite downloading_percents_app, downloading_percents_hook, IH.
  cbn [filter]. destruct (is_downloading d); reflexivity.
Qed.

(** *** Percents of the hook *)

Lemma Qeq_le (x y : Q) : (x == y)%Q -> (x <= y)%Q.
Proof. intros H. rewrite H. apply Qle_refl. Qed.

Lemma Qdiv_le_mono (x y z : Q) : (0 < z)%Q -> (x <= y)%Q -> (x / z <= y / z)%Q.
Proof.
  intros Hz H. unfold Qdiv. apply Qmult_le_compat_r; [exact H |].
  apply Qinv_le_0_compat. lra.
Qed.

Lemma Qfloor_div (a T : Z) : 0 < T -> Qfloor (inject_Z a / inject_Z T) = a / T.
Proof.
  intros HT.
  assert (E : (inject_Z a / inject_Z T == a # Z.to_pos T)%Q)
    by (rewrite Qmake_Qdiv, Z2Pos.id by lia; reflexivity).
  rewrite E. unfold Qfloor. rewrite Z2Pos.id by lia. reflexivity.
Qed.

Lemma Q_of_Zle (x y : Z) : x <= y -> (inject_Z x <= inject_Z y)%Q.
Proof. rewrite Zle_Qle. exact (fun H => H). Qed.

Lemma Q_of_Zlt (x y : Z) : x < y -> (inject_Z x < inject_Z y)%Q.
Proof. rewrite Zlt_Qlt. exact (fun H => H). Qed.

Lemma Qfloor_le_int (x : Q) (k : Z) : (x <= inject_Z k)%Q -> Qfloor x <= k.
Proof.
  intros H. pose proof (Qfloor_le x) as H1. rewrite Zle_Qle. eapply Qle_trans; eauto.
Qed.

Lemma Qfloor_lt_int (x : Q) (k : Z) : (x < inject_Z k)%Q -> Qfloor x < k.
Proof.
  intros H. pose proof (Qfloor_le x) as H1. rewrite Zlt_Qlt. eapply Qle_lt_trans; eauto.
Qed.

Lemma Qfloor_ge_int (x : Q) (k : Z) : (inject_Z k <= x)%Q -> k <= Qfloor x.
Proof. intros H. rewrite <- (Qfloor_Z k). apply Qfloor_resp_le, H. Qed.

#[export] Instance round_double_Proper : Proper (Qeq ==> Qeq) round_double.
Proof. intros x y H. apply round_double_comp, H. Qed.

#[export] Instance py_trunc_Proper : Proper (Qeq ==> eq) py_trunc.
Proof. intros x y H. apply py_trunc_comp, H. Qed.

Lemma num_truthy_iff (n : pynum) : num_truthy n = true <-> ~ (num_val n == 0)%Q.
Proof.
  unfold num_truthy. destruct (Qeq_bool (num_val n) 0) eqn:E; cbn [negb].
  - apply Qeq_bool_iff in E. split; [discriminate | intros H; contradiction].
  - split; [| reflexivity]. intros _ H. apply Qeq_bool_iff in H. congruence.
Qed.

Lemma py_or_num_known (o : option pynum) (dflt : pynum) :
  py_or_num o dflt = match known_count o with Some t => t | None => dflt end.
Proof.
  destruct o as [n |]; [| reflexivity].
  unfold py_or_num, known_count, num_truthy. destruct (Qeq_bool (num_val n) 0); reflexivity.
Qed.

Lemma known_count_truthy (o : option pynum) (t : pynum) :
  known_count o = Some t -> num_truthy t = true.
Proof.
  destruct o as [n |]; [| discriminate]. unfold known_count, num_truthy.
  destruct (Qeq_bool (num_val n) 0) eqn:E; [discriminate |].
  intros H. injection H as <-. rewrite E. reflexivity.
Qed.

Lemma hook_total_known (d : hook_dict) :
  hook_total d = match known_total d with Some t => t | None => NInt 0 end.
Proof.
  unfold hook_total, known_total. rewrite !py_or_num_known.
  destruct (known_count (d_total_bytes d)); [reflexivity |].
  destruct (known_count (d_total_bytes_estimate d)); reflexivity.
Qed.

Lemma known_total_truthy (d : hook_dict) (t : pynum) :
  known_total d = Some t -> num_truthy t = true.
Proof.
  unfold known_total. destruct (known_count (d_total_bytes d)) as [t' |] eqn:E.
  - intros H. injection H as <-. eapply known_count_truthy; eauto.
  - apply known_count_truthy.
Qed.

Lemma hook_got_int (d : hook_dict) (g : Z) : got_count d = NInt g -> hook_got d = NInt g.
Proof.
  unfold got_count, hook_got. rewrite py_or_num_known.
  destruct (d_downloaded_bytes d) as [n |]; intros H; [subst n | injection H as <-; reflexivity].
  unfold known_count. destruct (Qeq_bool (num_val (NInt g)) 0) eqn:E; [| reflexivity].
  apply Qeq_bool_iff in E. unfold Qeq in E. cbn in E. f_equal. lia.
Qed.

(** The percent of an [int] count: [got*100] is exact, and so is its
    conversion to [float] below [2^53]. *)
Lemma hook_pct_int_got (d : hook_dict) (g : Z) (t : pynum) :
  hook_got d = NInt g -> hook_total d = t -> num_truthy t = true -> 100 * g < 2 ^ 53 ->
  0 <= g -> hook_pct d = py_trunc (round_double (inject_Z (g * 100) / num_val t)).
Proof.
  intros Hg Ht Htr Hg1 Hg0. unfold hook_pct. rewrite Hg, Ht, Htr. cbn [num_mul100].
  destruct t as [y | q]; [reflexivity |].
  cbn [num_truediv float_of num_val]. rewrite round_double_int by lia. reflexivity.
Qed.

(** Rounding a non-negative [x] moves its floor by at most one. *)
Lemma round_double_floor (x : Q) : (0 <= x)%Q -> Qfloor x + 1 < 2 ^ 53 ->
  Qfloor x <= Qfloor (round_double x) <= Qfloor x + 1.
Proof.
  intros Hx Hk. pose proof (Qfloor_le x) as H1. pose proof (Qlt_floor x) as H2.
  assert (Hk0 : 0 <= Qfloor x) by (apply Qfloor_ge_int; exact Hx).
  set (k := Qfloor x) in *.
  split.
  - apply Qfloor_ge_int. eapply Qle_trans; [apply Qeq_le; symmetry; apply round_double_int; lia |].
    apply round_double_mono, H1.
  - apply Qfloor_le_int. eapply Qle_trans; [apply round_double_mono, Qlt_le_weak, H2 |].
    apply Qeq_le, round_double_int. lia.
Qed.

(** An [int / int] percent of a total below [2^53 / 100] is never rounded
    up to the next integer: the gap to it is at least [1/T]. *)
Lemma round_double_floor_exact (a T : Z) :
  0 <= a -> 0 < T -> a <= 100 * T -> 100 * T < 2 ^ 53 ->
  Qfloor (round_double (inject_Z a / inject_Z T)) = a / T.
Proof.
  intros Ha HT HaT HT53.
  set (x := (inject_Z a / inject_Z T)%Q).
  assert (HTq : (0 < inject_Z T)%Q) by (change 0%Q with (inject_Z 0); apply Q_of_Zlt; lia).
  assert (Hx0 : (0 <= x)%Q).
  { apply Qle_shift_div_l; [exact HTq |]. change 0%Q with (inject_Z 0) at 1.
    rewrite <- inject_Z_mult. apply Q_of_Zle. lia. }
  assert (Hfx : Qfloor x = a / T) by apply Qfloor_div, HT.
  assert (Hx100 : (x <= 100)%Q).
  { apply Qle_shift_div_r; [exact HTq |]. change 100%Q with (inject_Z 100).
    rewrite <- inject_Z_mult. apply Q_of_Zle. lia. }
  pose proof (round_double_floor x Hx0) as Hfl. rewrite Hfx in Hfl.
  assert (Hk : a / T <= 100) by (apply Z.div_le_upper_bound; lia).
  destruct (Hfl ltac:(lia)) as [Hlo _].
  apply Z.le_antisymm; [| exact Hlo].
  assert (Hlt : (round_double x < inject_Z (a / T + 1))%Q).
  { destruct (round_double_rel x Hx0) as [_ Hup].
    eapply Qle_lt_trans; [exact Hup |].
    apply (Qmult_lt_r _ _ (inject_Z T) HTq).
    assert (Hxt : (x * inject_Z T == inject_Z a)%Q) by (unfold x; field; lra).
    setoid_replace ((x + x * u53) * inject_Z T)%Q with (inject_Z a + inject_Z a * u53)%Q
      by (rewrite <- Hxt; ring).
    rewrite <- inject_Z_mult.
    assert (Hm : a < (a / T + 1) * T).
    { pose proof (Z.mod_pos_bound a T HT). pose proof (Z.div_mod a T ltac:(lia)). nia. }
    assert (H1 : (inject_Z a + 1 <= inject_Z ((a / T + 1) * T))%Q).
    { rewrite <- inject_Z_succ. apply Q_of_Zle. lia. }
    assert (H2 : (inject_Z a <= inject_Z (2 ^ 53 - 1))%Q) by (apply Q_of_Zle; lia).
    change (inject_Z (2 ^ 53 - 1)) with (9007199254740991 # 1) in H2.
    unfold u53. lra. }
  pose proof (Qfloor_lt_int _ _ Hlt). lia.
Qed.

Lemma float_of_pos (n : pynum) : (0 < num_val n)%Q -> (0 < float_of n)%Q.
Proof.
  destruct n as [z | q]; cbn [float_of num_val]; intros H; [| exact H].
  rewrite round_double_pos by exact H. apply round_pos_pos, H.
Qed.

Lemma float_of_rel (n : pynum) : (0 <= num_val n)%Q ->
  (num_val n - num_val n * u53 <= float_of n)%Q.
Proof.
  destruct n as [z | q]; cbn [float_of num_val]; intros H.
  - apply round_double_rel, H.
  - unfold u53. lra.
Qed.

Lemma mul100_float_bounds (n : pynum) : (0 <= num_val n)%Q ->
  (0 <= float_of (num_mul100 n) <= num_val n * 100 * (1 + u53) * (1 + u53))%Q.
Proof.
  intros H. destruct n as [z | q]; cbn [num_mul100 float_of num_val] in *.
  - assert (E : (inject_Z (z * 100) == inject_Z z * 100)%Q) by (rewrite inject_Z_mult; reflexivity).
    rewrite E. assert (H0 : (0 <= inject_Z z * 100)%Q) by lra.
    destruct (round_double_rel _ H0) as [_ H2].
    split; [apply round_double_nonneg, H0 |]. unfold u53 in *. lra.
  - assert (H0 : (0 <= q * 100)%Q) by lra.
    destruct (round_double_rel _ H0) as [_ H2].
    split; [apply round_double_nonneg, H0 |]. unfold u53 in *. lra.
Qed.

Lemma num_truediv_float (a b : pynum) :
  num_is_int a && num_is_int b = false ->
  num_truediv a b = round_double (float_of a / float_of b).
Proof. destruct a, b; cbn; congruence. Qed.

(** With [0 <= got <= total], [got*100/total] stays below [101] whatever is
    rounded: at most [100 (1+u)^3 / (1-u)]. *)
Lemma truediv_mul100_range (a b : pynum) :
  (0 <= num_val a)%Q -> (num_val a <= num_val b)%Q -> (0 < num_val b)%Q ->
  (0 <= num_truediv (num_mul100 a) b < 101)%Q.
Proof.
  intros Ha Hab Hb.
  destruct (num_is_int a && num_is_int b) eqn:Ek.
  - destruct a as [x | q]; [| discriminate]. destruct b as [y | q']; [| discriminate].
    cbn [num_mul100 num_truediv num_val] in *.
    assert (E : (inject_Z (x * 100) == inject_Z x * 100)%Q) by (rewrite inject_Z_mult; reflexivity).
    assert (Hv0 : (0 <= inject_Z (x * 100) / inject_Z y)%Q)
      by (apply Qle_shift_div_l; [exact Hb | rewrite E; lra]).
    assert (Hv1 : (inject_Z (x * 100) / inject_Z y <= inject_Z 100)%Q).
    { apply Qle_shift_div_r; [exact Hb |]. rewrite E. change (inject_Z 100) with 100%Q. lra. }
    split; [apply round_double_nonneg, Hv0 |].
    eapply Qle_lt_trans; [apply round_double_mono, Hv1 |].
    rewrite round_double_int by lia. reflexivity.
  - assert (Hn : num_is_int (num_mul100 a) = num_is_int a) by (destruct a; reflexivity).
    rewrite num_truediv_float by (rewrite Hn; exact Ek).
    destruct (mul100_float_bounds a Ha) as [Hm0 Hm1].
    pose proof (float_of_rel b ltac:(lra)) as Hft.
    set (fm := float_of (num_mul100 a)) in *. set (ft := float_of b) in *.
    assert (Hft0 : (0 < ft)%Q) by (unfold u53 in *; lra).
    assert (Hy0 : (0 <= fm / ft)%Q) by (apply Qle_shift_div_l; [exact Hft0 | lra]).
    assert (Hy1 : (fm / ft <= 10001 # 100)%Q).
    { apply Qle_shift_div_r; [exact Hft0 |]. unfold u53 in *. lra. }
    destruct (round_double_rel _ Hy0) as [_ Hr].
    split; [apply round_double_nonneg, Hy0 |]. unfold u53 in *. lra.
Qed.

(** For a fixed positive total, the percent grows with counts of one kind:
    every operation on the way is a monotone rounding. *)
Lemma truediv_mul100_mono (a a' b : pynum) :
  num_is_int a = num_is_int a' -> (num_val a <= num_val a')%Q -> (0 < num_val b)%Q ->
  (num_truediv (num_mul100 a) b <= num_truediv (num_mul100 a') b)%Q.
Proof.
  intros Hk Hle Hb.
  destruct a as [x | q], a' as [x' | q']; cbn [num_is_int] in Hk; try discriminate;
    cbn [num_mul100 num_val] in *.
  - assert (Hx : (inject_Z (x * 100) <= inject_Z (x' * 100))%Q).
    { apply Q_of_Zle. rewrite <- Zle_Qle in Hle. lia. }
    destruct b as [y | r]; cbn [num_truediv float_of num_val] in *.
    + apply round_double_mono, Qdiv_le_mono; assumption.
    + apply round_double_mono, Qdiv_le_mono; [exact Hb | apply round_double_mono, Hx].
  - assert (Hq : (round_double (q * 100) <= round_double (q' * 100))%Q)
      by (apply round_double_mono; lra).
    destruct b as [y | r]; cbn [num_truediv float_of num_val] in *.
    + apply round_double_mono, Qdiv_le_mono; [| exact Hq].
      apply (float_of_pos (NInt y)), Hb.
    + apply round_double_mono, Qdiv_le_mono; assumption.
Qed.

Lemma hook_pct_range (d : hook_dict) :
  (0 <= num_val (hook_got d))%Q ->
  (num_truthy (hook_total d) = true -> (num_val (hook_got d) <= num_val (hook_total d))%Q) ->
  0 <= hook_pct d <= 100.
Proof.
  intros Hg Hle. unfold hook_pct.
  destruct (num_truthy (hook_total d)) eqn:Ht; [| lia].
  specialize (Hle eq_refl). apply num_truthy_iff in Ht.
  assert (Hb : (0 < num_val (hook_total d))%Q).
  { destruct (Qlt_le_dec 0 (num_val (hook_total d))) as [H | H]; [exact H |].
    exfalso. apply Ht. lra. }
  destruct (truediv_mul100_range (hook_got d) (hook_total d) Hg Hle Hb) as [H0 H1].
  rewrite py_trunc_nonneg by exact H0.
  split; [apply Qfloor_ge_int, H0 | apply Z.lt_succ_r, Qfloor_lt_int, H1].
Qed.

Lemma hook_pct_mono (d d' : hook_dict) (T : pynum) :
  hook_total d = T -> hook_total d' = T -> (0 < num_val T)%Q ->
  num_is_int (hook_got d) = num_is_int (hook_got d') ->
  (num_val (hook_got d) <= num_val (hook_got d'))%Q -> hook_pct d <= hook_pct d'.
Proof.
  intros H1 H2 HT Hk Hle. unfold hook_pct. rewrite H1, H2.
  replace (num_truthy T) with true by (symmetry; apply num_truthy_iff; intros H; lra).
  apply py_trunc_mono, truediv_mul100_mono; assumption.
Qed.

Lemma pct_sorted (T : pynum) (kind : bool) (l : list hook_dict) :
  (0 < num_val T)%Q -> Forall (fun d => hook_total d = T) l ->
  Forall (fun d => num_is_int (hook_got d) = kind) l ->
  sorted_by Qle (map (fun d => num_val (hook_got d)) l) -> sorted_by Z.le (map hook_pct l).
Proof.
  intros HT. induction l as [| d l IH]; intros Ht Hk Hs; [exact I |].
  apply Forall_cons_iff in Ht as [Htd Htl]. apply Forall_cons_iff in Hk as [Hkd Hkl].
  destruct l as [| d' l']; [exact I |].
  pose proof (Forall_inv Htl) as Htd'. pose proof (Forall_inv Hkl) as Hkd'.
  destruct Hs as [Hle Hs]. cbn [map]. split.
  - apply (hook_pct_mono d d' T); [exact Htd | exact Htd' | exact HT | congruence | exact Hle].
  - apply IH; assumption.
Qed.

Lemma pct_bounded (l : list hook_dict) :
  Forall (fun d => (0 <= num_val (hook_got d))%Q /\
            (num_truthy (hook_total d) = true ->
             (num_val (hook_got d) <= num_val (hook_total d))%Q)) l ->
  Forall (fun p => 0 <= p <= 100) (map hook_pct l).
Proof.
  induction l as [| d l IH]; intros H; [constructor |].
  inversion H as [| ? ? [Hd1 Hd2] Hl]; subst.
  cbn [map]. constructor; [apply hook_pct_range; assumption | apply IH, Hl].
Qed.

(** ** Claims about the progress hook *)

(** C5 (as stated, refuted): Python computes [got*100/total] in floating
    point and [int] truncates the rounded quotient, which can be one more than
    the exact floor.  A fragmented download reporting 1932475735 bytes of an
    estimated 3943828030.612245 (a [float]) shows 49, the exact floor being
    48; an [int] count of [2^60 - 1] bytes of [2^60] shows 100, not 99. *)
Lemma hook_percent_rounded :
  hook 0 (estimated_dict 1932475735 (8270806842054531 # 2097152)) =
    [Update 0 [("status", VStr "Downloading"); ("progress", VInt 49); ("speed", VStr "")]] /\
  claimed_percent (estimated_dict 1932475735 (8270806842054531 # 2097152)) = 48 /\
  hook 0 (downloading_dict (2 ^ 60 - 1) (Some (2 ^ 60)) None) =
    [Update 0 [("status", VStr "Downloading"); ("progress", VInt 100); ("speed", VStr "")]] /\
  claimed_percent (downloading_dict (2 ^ 60 - 1) (Some (2 ^ 60)) None) = 99.
Proof. repeat split; vm_compute; reflexivity. Qed.

(** C5 (amended): a ["downloading"] callback gives one [Downloading] event
    carrying [int(got*100/total)] as Python rounds it, [0] when neither total
    is known (absent or zero).  For an [int] downloaded count [g] with
    [0 <= g <= total] and [100 g < 2^53], that percent is the exact
    [floor(g*100/total)] or one more; when the total is an [int] [T] with
    [0 <= g <= T] and [100 T < 2^53] (about 90 TB) it is exactly the floor. *)
Theorem hook_downloading_percent (i : nat) (d : hook_dict)
  (Hst : d_status d = Some "downloading") :
  hook i d = [Update i [("status", VStr "Downloading"); ("progress", VInt (hook_pct d));
                        ("speed", VStr (hook_speed d))]] /\
  (known_total d = None -> hook_pct d = 0) /\
  (forall (g : Z) (t : pynum), got_count d = NInt g -> known_total d = Some t ->
     0 <= g -> 100 * g < 2 ^ 53 -> (inject_Z g <= num_val t)%Q ->
     claimed_percent d <= hook_pct d <= claimed_percent d + 1) /\
  (forall g T : Z, got_count d = NInt g -> known_total d = Some (NInt T) ->
     0 <= g <= T -> 100 * T < 2 ^ 53 -> hook_pct d = claimed_percent d).
Proof.
  split; [unfold hook; rewrite Hst; reflexivity |].
  split; [| split].
  - intros Hn. unfold hook_pct. rewrite hook_total_known, Hn. reflexivity.
  - intros g t Hg Ht Hg0 Hg53 Hgt.
    assert (Htr := known_total_truthy d t Ht).
    assert (H0 : (0 <= inject_Z g)%Q) by (change 0%Q with (inject_Z 0); apply Q_of_Zle; lia).
    assert (Htp : (0 < num_val t)%Q).
    { apply num_truthy_iff in Htr.
      destruct (Qlt_le_dec 0 (num_val t)) as [H | H]; [exact H | exfalso; apply Htr; lra]. }
    rewrite (hook_pct_int_got d g t (hook_got_int d g Hg))
      by (try rewrite hook_total_known, Ht; auto; lia).
    set (x := (inject_Z (g * 100) / num_val t)%Q).
    assert (E : (inject_Z (g * 100) == inject_Z g * 100)%Q) by (rewrite inject_Z_mult; reflexivity).
    assert (Hx0 : (0 <= x)%Q) by (apply Qle_shift_div_l; [exact Htp | rewrite E; lra]).
    assert (Hx1 : (x <= inject_Z 100)%Q).
    { apply Qle_shift_div_r; [exact Htp |]. rewrite E. change (inject_Z 100) with 100%Q. lra. }
    assert (Hc : claimed_percent d = Qfloor x).
    { unfold claimed_percent. rewrite Ht, Hg. cbn [num_val]. unfold x. rewrite E. reflexivity. }
    rewrite Hc, py_trunc_nonneg by (apply round_double_nonneg, Hx0).
    assert (Hf : Qfloor x <= 100) by (apply Qfloor_le_int, Hx1).
    apply round_double_floor; [exact Hx0 | lia].
  - intros g T Hg Ht HgT HT53.
    assert (Htr := known_total_truthy d (NInt T) Ht).
    assert (HT : 0 < T).
    { apply num_truthy_iff in Htr. cbn [num_val] in Htr.
      destruct (Z.eq_dec T 0) as [-> | HT0]; [exfalso; apply Htr; reflexivity | lia]. }
    rewrite (hook_pct_int_got d g (NInt T) (hook_got_int d g Hg))
      by (try rewrite hook_total_known, Ht; auto; lia).
    cbn [num_val].
    assert (Hx0 : (0 <= round_double (inject_Z (g * 100) / inject_Z T))%Q).
    { apply round_double_nonneg, Qle_shift_div_l;
        [change 0%Q with (inject_Z 0); apply Q_of_Zlt; lia |].
      change 0%Q with (inject_Z 0) at 1. rewrite <- inject_Z_mult. apply Q_of_Zle. lia. }
    rewrite py_trunc_nonneg by exact Hx0.
    rewrite round_double_floor_exact by lia.
    unfold claimed_percent. rewrite Ht, Hg. cbn [num_val].
    assert (E : (inject_Z g * 100 == inject_Z (g * 100))%Q) by (rewrite inject_Z_mult; reflexivity).
    rewrite E. symmetry. apply Qfloor_div, HT.
Qed.

Lemma downloading_percents_item ydl (i : nat) (r : row) :
  downloading_percents (process_item ydl i r) =
  match ydl_init (ydl i (url r)) with
  | Some _ => []
  | None => map hook_pct (filter is_downloading (ydl_progress (ydl i (url r))))
  end.
Proof.
  unfold process_item. destruct (ydl i (url r)) as [init p ds dl].
  cbn [ydl_init ydl_probe ydl_progress ydl_download].
  change (Update i [("status", VStr "Starting"); ("progress", VInt 0)] :: ?l)
    with ([Update i [("status", VStr "Starting"); ("progress", VInt 0)]] ++ l).
  rewrite downloading_percents_app.
  destruct init as [e |]; [destruct e; reflexivity |].
  rewrite !downloading_percents_app, downloading_percents_hooks.
  assert (Hp : downloading_percents (probe_events i p) = []).
  { destruct p as [e | [t |]]; [reflexivity | | reflexivity].
    unfold probe_events. destruct (String.eqb t ""); reflexivity. }
  rewrite Hp. destruct dl as [[m | m] |]; cbn; rewrite app_nil_r; reflexivity.
Qed.

(** C4 (as stated, refuted): a download of a video and an audio stream
    ([bv*+ba]) whose audio stream overruns its size estimate gives, within one
    item, the Downloading percents [100; 60; 160]: they fall between streams
    and exceed 100. *)
Lemma downloading_percents_two_streams :
  let pcts := downloading_percents (process_item two_stream_ydl 0 {| url := "u" |}) in
  pcts = [100; 60; 160] /\
  ~ (sorted_by Z.le pcts /\ Forall (fun p => p <= 100) pcts).
Proof.
  cbv zeta.
  assert (E : downloading_percents (process_item two_stream_ydl 0 {| url := "u" |})
              = [100; 60; 160]) by (vm_compute; reflexivity).
  rewrite E. split; [reflexivity |].
  cbn. intros [[H _] _]. lia.
Qed.

(** C4 (amended): the Downloading percents of one item are the hook's
    percents of its ["downloading"] callbacks, each computed from its own
    callback alone.  They are within [0..100] when every callback reports
    [0 <= got] and, when it has a total, [got <= total].  They are
    non-decreasing when the callbacks share one positive total and report
    non-decreasing counts, all [int] or all [float] (the two kinds are rounded
    differently).  Counts and totals stay below [2^1000], where Python's
    conversions to [float] do not overflow. *)
Theorem downloading_percents_bounds ydl (i : nat) (r : row)
  (Hinit : ydl_init (ydl i (url r)) = None) :
  let ds := filter is_downloading (ydl_progress (ydl i (url r))) in
  let pcts := downloading_percents (process_item ydl i r) in
  pcts = map hook_pct ds /\
  (Forall (fun d => (0 <= num_val (hook_got d))%Q /\
            (num_truthy (hook_total d) = true ->
             (num_val (hook_got d) <= num_val (hook_total d) < pow2 1000)%Q)) ds ->
   Forall (fun p => 0 <= p <= 100) pcts) /\
  (forall T : pynum, (0 < num_val T < pow2 1000)%Q ->
   Forall (fun d => hook_total d = T /\ (num_val (hook_got d) < pow2 1000)%Q) ds ->
   (Forall (fun d => num_is_int (hook_got d) = true) ds \/
    Forall (fun d => num_is_int (hook_got d) = false) ds) ->
   sorted_by Qle (map (fun d => num_val (hook_got d)) ds) ->
   sorted_by Z.le pcts).
Proof.
  cbn zeta. rewrite downloading_percents_item, Hinit.
  split; [reflexivity | split].
  - intros H. apply pct_bounded. eapply Forall_impl; [| exact H].
    intros d [H1 H2]. split; [exact H1 | intros Ht; apply H2, Ht].
  - intros T [HT _] Ht Hk Hs.
    assert (Ht' : Forall (fun d => hook_total d = T)
                    (filter is_downloading (ydl_progress (ydl i (url r)))))
      by (eapply Forall_impl; [| exact Ht]; intros d [H _]; exact H).
    destruct Hk as [Hk | Hk]; eapply pct_sorted; eauto.
Qed.

Lemma is_prefix_app (t q : string) : is_prefix t (t ++ q) = true.
Proof.
  induction t as [| a t IH]; [destruct q; reflexivity |].
  cbn. rewrite Ascii.eqb_refl, IH. reflexivity.
Qed.

Lemma string_append_assoc (a b c : string) :
  ((a ++ b) ++ c)%string = (a ++ b ++ c)%string.
Proof. induction a as [| x a IH]; cbn; [reflexivity | rewrite IH; reflexivity]. Qed.

Lemma contains_substrb (s t : string) : contains s t -> substrb t s = true.
Proof.
  intros (pre & post & ->). induction pre as [| a pre IH].
  - destruct t; cbn; [destruct post; reflexivity |].
    rewrite Ascii.eqb_refl, is_prefix_app. reflexivity.
  - cbn [String.append substrb]. rewrite IH. apply orb_true_r.
Qed.

(** *** Length of a decimal text *)

Lemma decimal_digits_len_lo (f k : nat) (n : Z) (acc : string) :
  n < 10 ^ Z.of_nat (S f) -> 10 ^ Z.of_nat k <= n ->
  (k + 1 + String.length acc <= String.length (decimal_digits (S f) n acc))%nat.
Proof.
  revert k n acc. induction f as [| f IH]; intros k n acc Hn Hk.
  - cbn [decimal_digits]. cbn in Hn. replace (n <? 10) with true by lia. cbn [String.length].
    destruct k as [| k]; [lia |].
    exfalso. rewrite Nat2Z.inj_succ, Z.pow_succ_r in Hk by lia.
    assert (0 < 10 ^ Z.of_nat k) by (apply Z.pow_pos_nonneg; lia). lia.
  - change (decimal_digits (S (S f)) n acc) with
      (if n <? 10 then String (digit_char (n mod 10)) acc
       else decimal_digits (S f) (n / 10) (String (digit_char (n mod 10)) acc)).
    destruct (Z.ltb_spec n 10) as [Hlt | Hge].
    + cbn [String.length]. destruct k as [| k]; [lia |].
      exfalso. rewrite Nat2Z.inj_succ, Z.pow_succ_r in Hk by lia.
      assert (0 < 10 ^ Z.of_nat k) by (apply Z.pow_pos_nonneg; lia). lia.
    + assert (Hq : n / 10 < 10 ^ Z.of_nat (S f)).
      { apply Z.div_lt_upper_bound; [lia |].
        rewrite <- Z.pow_succ_r by lia. rewrite <- Nat2Z.inj_succ. exact Hn. }
      destruct k as [| k].
      * pose proof (IH 0%nat (n / 10) (String (digit_char (n mod 10)) acc) Hq
                      ltac:(cbn; apply Z.div_le_lower_bound; lia)) as H.
        cbn [String.length] in H. lia.
      * assert (Hk' : 10 ^ Z.of_nat k <= n / 10).
        { apply Z.div_le_lower_bound; [lia |].
          rewrite <- Z.pow_succ_r by lia. rewrite <- Nat2Z.inj_succ. exact Hk. }
        pose proof (IH k (n / 10) (String (digit_char (n mod 10)) acc) Hq Hk') as H.
        cbn [String.length] in H. lia.
Qed.

Lemma decimal_digits_len_hi (f k : nat) (n : Z) (acc : string) :
  0 <= n < 10 ^ Z.of_nat (S k) ->
  (String.length (decimal_digits (S f) n acc) <= S k + String.length acc)%nat.
Proof.
  revert k n acc. induction f as [| f IH]; intros k n acc Hn.
  - cbn [decimal_digits]. destruct (n <? 10); cbn [String.length]; lia.
  - change (decimal_digits (S (S f)) n acc) with
      (if n <? 10 then String (digit_char (n mod 10)) acc
       else decimal_digits (S f) (n / 10) (String (digit_char (n mod 10)) acc)).
    destruct (Z.ltb_spec n 10) as [Hlt | Hge]; [cbn [String.length]; lia |].
    destruct k as [| k]; [cbn in Hn; lia |].
    assert (Hq : 0 <= n / 10 < 10 ^ Z.of_nat (S k)).
    { split; [apply Z.div_pos; lia |]. apply Z.div_lt_upper_bound; [lia |].
      rewrite <- Z.pow_succ_r by lia. rewrite <- Nat2Z.inj_succ. lia. }
    pose proof (IH k (n / 10) (String (digit_char (n mod 10)) acc) Hq) as H.
    cbn [String.length] in H. lia.
Qed.

Lemma decimal_fuel_bound (n : Z) :
  0 <= n -> n < 10 ^ Z.of_nat (S (Z.to_nat (Z.log2 n))).
Proof.
  intros H. destruct (Z.eq_dec n 0) as [-> | Hn0]; [cbn; lia |].
  destruct (Z.log2_spec n) as [_ Hlt]; [lia |].
  assert (Hl := Z.log2_nonneg n).
  rewrite Nat2Z.inj_succ, Z2Nat.id by lia.
  eapply Z.lt_le_trans; [exact Hlt |].
  apply Z.pow_le_mono_l. lia.
Qed.

(** [str] of a non-negative [int] has at most [k] digits exactly below [10^k]. *)
Lemma int_text_length (n : Z) (k : nat) :
  0 <= n -> (String.length (int_text n) <= S k)%nat <-> n < 10 ^ Z.of_nat (S k).
Proof.
  intros Hn. unfold int_text. replace (n <? 0) with false by lia. rewrite Z.abs_eq by exact Hn.
  split.
  - intros Hl. destruct (Z.lt_ge_cases n (10 ^ Z.of_nat (S k))) as [H | H]; [exact H |].
    pose proof (decimal_digits_len_lo _ (S k) n "" (decimal_fuel_bound n Hn) H) as H'.
    cbn [String.length] in H'. lia.
  - intros H. pose proof (decimal_digits_len_hi (Z.to_nat (Z.log2 n)) k n "" (conj Hn H)) as H'.
    cbn [String.length] in H'. lia.
Qed.

Lemma py_str_int_small (z : Z) : Z.abs z < 10 ^ 4300 -> py_str_int z = Some (int_text z).
Proof.
  intros H. unfold py_str_int.
  pose proof (proj2 (int_text_length (Z.abs z) 4299 (Z.abs_nonneg z)) H) as Hl.
  apply Nat.ltb_ge in Hl. rewrite Hl. reflexivity.
Qed.

Lemma py_str_int_large (z : Z) : 10 ^ 4300 <= Z.abs z -> py_str_int z = None.
Proof.
  intros H. unfold py_str_int.
  destruct (Nat.ltb_spec 4300 (String.length (int_text (Z.abs z)))) as [_ | Hl]; [reflexivity |].
  pose proof (proj1 (int_text_length (Z.abs z) 4299 (Z.abs_nonneg z)) Hl) as Hl'.
  exfalso. exact (Z.lt_irrefl _ (Z.le_lt_trans _ _ _ H Hl')).
Qed.

(** ** Claims about [build_format] *)

(** C6 (as stated, refuted): the cap [0] is an [int] that is not [None], yet
    [build_format(0)] has no height filter with its value: [0] is falsy.  And
    [build_format] is not total: for a cap of more than 4300 digits the
    f-string raises [ValueError]. *)
Lemma build_format_zero_uncapped :
  build_format (Some 0) = Some "bv*+ba/b" /\
  ~ contains "bv*+ba/b" ("[height<=" ++ int_text 0 ++ "]")%string /\
  build_format (Some (10 ^ 4300)) = None.
Proof.
  split; [reflexivity | split].
  - intros H. apply contains_substrb in H. discriminate H.
  - unfold build_format, int_truthy.
    assert (Hp : 0 < 10 ^ 4300) by (apply Z.pow_pos_nonneg; lia).
    replace (10 ^ 4300 =? 0) with false by (symmetry; apply Z.eqb_neq, Z.neq_sym, Z.lt_neq, Hp).
    cbn [negb]. rewrite py_str_int_large by (rewrite Z.abs_eq; [apply Z.le_refl | apply Z.lt_le_incl, Hp]).
    reflexivity.
Qed.

(** C6 (amended): [build_format] is pure.  For a nonzero cap [r] of at most
    4300 digits it is ["bv*[height<=R]+ba/b[height<=R]"] with [R = str(r)], so
    it contains the height filter [[height<=R]]; for a longer cap the f-string
    raises [ValueError] ([None]).  For [None] and for the falsy cap [0] it is
    the uncapped ["bv*+ba/b"], which contains no height filter. *)
Theorem build_format_cap :
  build_format None = Some "bv*+ba/b" /\
  build_format (Some 0) = Some "bv*+ba/b" /\
  ~ contains "bv*+ba/b" "height" /\
  (forall r, r <> 0 -> Z.abs r < 10 ^ 4300 ->
     build_format (Some r) =
       Some ("bv*[height<=" ++ int_text r ++ "]+ba/b[height<=" ++ int_text r ++ "]")%string /\
     contains ("bv*[height<=" ++ int_text r ++ "]+ba/b[height<=" ++ int_text r ++ "]")%string
              ("[height<=" ++ int_text r ++ "]")%string) /\
  (forall r, 10 ^ 4300 <= Z.abs r -> build_format (Some r) = None).
Proof.
  split; [reflexivity | split; [reflexivity | split; [| split]]].
  - intros H. apply contains_substrb in H. discriminate H.
  - intros r Hr Hs. unfold build_format, int_truthy.
    destruct (Z.eqb_spec r 0) as [-> | _]; [contradiction |]. cbn [negb].
    rewrite py_str_int_small by exact Hs.
    split; [reflexivity |].
    exists "bv*"%string, ("+ba/b[height<=" ++ int_text r ++ "]")%string.
    cbn. rewrite !string_append_assoc. reflexivity.
  - intros r Hs. unfold build_format, int_truthy.
    destruct (Z.eqb_spec r 0) as [-> | _]; cbn [negb].
    + exfalso. assert (Hp : 0 < 10 ^ 4300) by (apply Z.pow_pos_nonneg; lia).
      exact (Z.lt_irrefl 0 (Z.lt_le_trans _ _ _ Hp Hs)).
    + rewrite py_str_int_large by exact Hs. reflexivity.
Qed.

(** ** Claims about the title probe *)

(** C8 (as stated, refuted): a probe that returns normally (here an info dict
    without a title) emits no [TitleResolved] event. *)
Lemma probe_without_title_no_event :
  count_titles (process_item untitled_ydl 0 {| url := "u" |}) = 0%nat.
Proof. reflexivity. Qed.

Lemma count_titles_app (l1 l2 : list event) :
  count_titles (l1 ++ l2) = (count_titles l1 + count_titles l2)%nat.
Proof. unfold count_titles. rewrite filter_app, length_app. reflexivity. Qed.

Lemma count_titles_hooks (i : nat) (ds : list hook_dict) :
  count_titles (flat_map (hook i) ds) = 0%nat.
Proof.
  induction ds as [| d ds IH]; [reflexivity |].
  cbn [flat_map]. rewrite count_titles_app, IH. unfold hook.
  destruct (status_eqb (d_status d) "downloading"); [reflexivity |].
  destruct (status_eqb (d_status d) "finished"); reflexivity.
Qed.

(** C8 (amended): the title probe is best effort.  When it raises, the
    exception is swallowed: the item's events are exactly those of a probe
    that found no title, [Starting], the download's progress events and its
    terminal event, with no [TitleResolved] and no error for the probe.  When
    it returns metadata with a non-empty title, [TitleResolved] is emitted
    exactly once, right after [Starting] and before any download event; when
    it returns no title or an empty one, none is emitted. *)
Theorem title_probe_best_effort (i : nat) (r : row) (ds : list hook_dict)
  (dl : option py_exception) :
  let item p := process_item (fun _ _ => {| ydl_init := None; ydl_probe := p;
                                            ydl_progress := ds; ydl_download := dl |}) i r in
  let last := match dl with
              | None => Update i [("status", VStr "Done"); ("progress", VInt 100)]
              | Some e => Update i (error_payload e)
              end in
  (forall e, item (ProbeRaises e) = item (ProbeReturns None)) /\
  item (ProbeReturns None) =
    Update i [("status", VStr "Starting"); ("progress", VInt 0)] ::
    flat_map (hook i) ds ++ [last] /\
  count_titles (item (ProbeReturns None)) = 0%nat /\
  item (ProbeReturns (Some "")) = item (ProbeReturns None) /\
  (forall t, t <> ""%string ->
     item (ProbeReturns (Some t)) =
       Update i [("status", VStr "Starting"); ("progress", VInt 0)] ::
       Update i [("title", VStr t)] :: flat_map (hook i) ds ++ [last] /\
     count_titles (item (ProbeReturns (Some t))) = 1%nat).
Proof.
  cbv zeta. unfold process_item. cbn [ydl_init ydl_probe ydl_progress ydl_download].
  assert (Hlast : count_titles [match dl with
              | None => Update i [("status", VStr "Done"); ("progress", VInt 100)]
              | Some e => Update i (error_payload e)
              end] = 0%nat) by (destruct dl as [[m | m] |]; reflexivity).
  split; [intros e; reflexivity | split; [| split; [| split]]].
  - destruct dl; reflexivity.
  - change (Update i [("status", VStr "Starting"); ("progress", VInt 0)] :: ?l)
      with ([Update i [("status", VStr "Starting"); ("progress", VInt 0)]] ++ l).
    rewrite !count_titles_app, count_titles_hooks.
    destruct dl as [[m | m] |]; reflexivity.
  - reflexivity.
  - intros t Ht. cbn [probe_events].
    destruct (String.eqb_spec t ""); [contradiction |].
    split; [destruct dl; reflexivity |].
    change (Update i [("status", VStr "Starting"); ("progress", VInt 0)] :: ?l)
      with ([Update i [("status", VStr "Starting"); ("progress", VInt 0)]] ++ l).
    rewrite !count_titles_app, count_titles_hooks.
    destruct dl as [[m | m] |]; reflexivity.
Qed.

(** ** Claims about [human_bytes] *)

Lemma human_bytes_loop_spec (fuel : nat) (n : Q) (i : nat) :
  (i <= 4)%nat -> (4 - i <= fuel)%nat ->
  exists k,
    human_bytes_loop fuel n i = (Nat.iter k (fun x => x / 1024)%Q n, (i + k)%nat) /\
    (i + k <= 4)%nat /\
    ((i + k = 4)%nat \/ (Nat.iter k (fun x => x / 1024)%Q n < 1024)%Q) /\
    (forall j, (j < k)%nat -> (1024 <= Nat.iter j (fun x => x / 1024)%Q n)%Q).
Proof.
  revert n i. induction fuel as [| fuel IH]; intros n i Hi Hf.
  - exists 0%nat. cbn. rewrite Nat.add_0_r.
    split; [reflexivity | split; [lia | split; [left; lia | intros; lia]]].
  - cbn [human_bytes_loop]. replace (length units - 1)%nat with 4%nat by reflexivity.
    destruct (Qle_bool 1024 n) eqn:Hn; destruct (Nat.ltb_spec i 4) as [Hlt | Hge];
      cbn [andb].
    + destruct (IH (n / 1024)%Q (S i)) as (k & Heq & Hle & Hend & Hbig); [lia | lia |].
      exists (S k). rewrite Nat.iter_succ_r, Heq.
      replace (S i + k)%nat with (i + S k)%nat by lia.
      split; [reflexivity | split; [lia | split; [destruct Hend; [left; lia | right; exact H] |]]].
      intros [| j] Hj.
      * apply Qle_bool_iff. exact Hn.
      * rewrite Nat.iter_succ_r. apply Hbig. lia.
    + exists 0%nat. rewrite Nat.add_0_r.
      split; [reflexivity | split; [lia | split; [left; lia | intros; lia]]].
    + exists 0%nat. rewrite Nat.add_0_r.
      split; [reflexivity | split; [lia | split; [right | intros; lia]]].
      cbn. apply Qnot_le_lt. intros H. apply Qle_bool_iff in H. congruence.
    + exists 0%nat. rewrite Nat.add_0_r.
      split; [reflexivity | split; [lia | split; [left; lia | intros; lia]]].
Qed.

(** C7: [human_bytes] of [None] and of [0] is ["0 B"], of [1536] is
    ["1.5 KB"], of [1024*1024] is ["1.0 MB"]; in general, for [n > 0], it is
    [n] divided [i] times by [1024], formatted with one decimal place, and the
    [i]-th unit, where every division was taken from a magnitude of at least
    [1024] and the result is below [1024] or the unit is [TB]. *)
Theorem human_bytes_spec :
  human_bytes None = "0 B" /\
  human_bytes (Some 0%Q) = "0 B" /\
  human_bytes (Some 1536%Q) = "1.5 KB" /\
  human_bytes (Some (1024 * 1024)%Q) = "1.0 MB" /\
  (forall q, (0 < q)%Q ->
     exists i,
       (i <= 4)%nat /\
       human_bytes (Some q) =
         (format_1f (Nat.iter i (fun x => x / 1024)%Q q) ++ " " ++ nth i units "")%string /\
       (nth i units "" = "TB" \/ (Nat.iter i (fun x => x / 1024)%Q q < 1024)%Q) /\
       (forall j, (j < i)%nat -> (1024 <= Nat.iter j (fun x => x / 1024)%Q q)%Q)).
Proof.
  split; [reflexivity | split; [reflexivity | split; [reflexivity | split; [reflexivity |]]]].
  intros q Hq. unfold human_bytes.
  assert (H0 : Qeq_bool q 0 = false).
  { destruct (Qeq_bool q 0) eqn:E; [| reflexivity].
    apply Qeq_bool_iff in E. rewrite E in Hq. discriminate Hq. }
  assert (H1 : Qle_bool q 0 = false).
  { destruct (Qle_bool q 0) eqn:E; [| reflexivity].
    apply Qle_bool_iff in E. exfalso. apply (Qlt_not_le _ _ Hq E). }
  rewrite H0, H1. cbn [orb].
  destruct (human_bytes_loop_spec (length units) q 0) as (k & Heq & Hle & Hend & Hbig);
    [lia | cbn; lia |].
  rewrite Heq. exists k. cbn [Nat.add] in *.
  split; [exact Hle | split; [reflexivity | split; [| exact Hbig]]].
  destruct Hend as [-> | Hlt]; [left; reflexivity | right; exact Hlt].
Qed.

(** C10: [human_bytes] returns ["0 B"] for [None] and for every [n <= 0],
    negative values included. *)
Theorem human_bytes_nonpositive (n : option Q)
  (H : match n with None => True | Some q => (q <= 0)%Q end) :
  human_bytes n = "0 B".
Proof.
  destruct n as [q |]; [| reflexivity]. unfold human_bytes.
  apply Qle_bool_iff in H. rewrite H, orb_true_r. reflexivity.
Qed.

(** ** Witnesses *)

Lemma run_without_stop_completes_witness :
  (forall j : nat, (fun _ : nat => 0%nat) j = 0%nat) /\
  let evs := run demo_ydl (fun _ => 0%nat) (DLWorker_init demo_rows []) in
  terminal_rows evs = seq 0 (length demo_rows) /\
  sorted_by le (update_rows evs) /\
  count_finished evs = 1%nat /\
  (exists pre, evs = pre ++ [Finished] /\ ~ In Finished pre).
Proof.
  split; [intros j; reflexivity |].
  apply (run_without_stop_completes demo_ydl (fun _ => 0%nat) demo_rows []).
  intros j; reflexivity.
Defined.

Lemma run_stop_before_item_witness :
  let calls := fun j : nat => if Nat.eqb j 2 then 1%nat else 0%nat in
  ((2 <= length demo_rows)%nat /\ (forall j, (j < 2)%nat -> calls j = 0%nat) /\
   (0 < calls 2%nat)%nat) /\
  let evs := run demo_ydl calls (DLWorker_init demo_rows []) in
  evs = process_all demo_ydl 0 (firstn 2 demo_rows) ++ [Finished] /\
  terminal_rows evs = seq 0 2 /\
  Forall (fun j => j < 2)%nat (update_rows evs) /\
  count_finished evs = 1%nat /\
  (exists pre, evs = pre ++ [Finished] /\ ~ In Finished pre).
Proof.
  cbv zeta. split.
  - split; [cbn; lia | split; [| cbn; lia]].
    intros j Hj. destruct j as [| [| j]]; [reflexivity | reflexivity | lia].
  - apply (run_stop_before_item demo_ydl
             (fun j : nat => if Nat.eqb j 2 then 1%nat else 0%nat) demo_rows [] 2).
    + cbn; lia.
    + intros j Hj. destruct j as [| [| j]]; [reflexivity | reflexivity | lia].
    + cbn; lia.
Defined.

Lemma item_events_outcome_witness :
  (forall j : nat, (fun _ : nat => 0%nat) j = 0%nat) /\
  run demo_ydl (fun _ => 0%nat) (DLWorker_init demo_rows []) =
    process_all demo_ydl 0 demo_rows ++ [Finished].
Proof.
  split; [intros j; reflexivity |].
  apply (item_events_outcome demo_ydl (fun _ => 0%nat) demo_rows []).
  intros j; reflexivity.
Defined.

Lemma hook_downloading_percent_witness :
  d_status (downloading_dict 37 None (Some 200)) = Some "downloading" /\
  hook 0 (downloading_dict 37 None (Some 200)) =
    [Update 0 [("status", VStr "Downloading"); ("progress", VInt 18); ("speed", VStr "")]] /\
  hook_pct (downloading_dict 37 None (Some 200)) =
    claimed_percent (downloading_dict 37 None (Some 200)).
Proof.
  split; [reflexivity |].
  destruct (hook_downloading_percent 0 (downloading_dict 37 None (Some 200)) eq_refl)
    as (E & _ & _ & Hx).
  split; [rewrite E; vm_compute; reflexivity |].
  apply (Hx 37 200); [reflexivity | reflexivity | lia | lia].
Defined.

Lemma downloading_percents_bounds_witness :
  ydl_init (demo_ydl 0 "a") = None /\
  downloading_percents (process_item demo_ydl 0 {| url := "a" |}) = [20; 70] /\
  Forall (fun p => 0 <= p <= 100) (downloading_percents (process_item demo_ydl 0 {| url := "a" |})) /\
  sorted_by Z.le (downloading_percents (process_item demo_ydl 0 {| url := "a" |})).
Proof.
  split; [reflexivity |].
  destruct (downloading_percents_bounds demo_ydl 0 {| url := "a" |} eq_refl) as (E & B & S).
  assert (Hds : filter is_downloading (ydl_progress (demo_ydl 0 (url {| url := "a" |}))) =
                [downloading_dict 20 (Some 100) None; downloading_dict 70 (Some 100) None])
    by reflexivity.
  rewrite Hds in B, S, E.
  split; [rewrite E; vm_compute; reflexivity | split].
  - apply B. repeat constructor; intros; apply Qle_bool_iff; vm_compute; reflexivity.
  - apply (S (NInt 100)).
    + split; reflexivity.
    + repeat constructor; reflexivity.
    + left. repeat constructor.
    + split; [apply Qle_bool_iff; vm_compute; reflexivity | exact I].
Defined.

Lemma human_bytes_nonpositive_witness :
  ((-5 <= 0)%Q) /\ human_bytes (Some (-5)%Q) = "0 B".
Proof.
  split; [vm_compute; discriminate |].
  apply (human_bytes_nonpositive (Some (-5)%Q)). vm_compute. discriminate.
Defined.

(** ** The main window: lemmas *)

Lemma update_nth_length {A : Type} (n : nat) (f : A -> A) (l : list A) :
  length (update_nth n f l) = length l.
Proof. revert n; induction l as [| x l IH]; intros [| n]; cbn; auto. Qed.

Lemma update_nth_same {A : Type} (n : nat) (f : A -> A) (l : list A) (d : A) :
  (n < length l)%nat -> nth n (update_nth n f l) d = f (nth n l d).
Proof.
  revert n; induction l as [| x l IH]; intros [| n] Hn; cbn in *; try lia; auto.
  apply IH. lia.
Qed.

Lemma update_nth_other {A : Type} (n j : nat) (f : A -> A) (l : list A) (d : A) :
  j <> n -> nth j (update_nth n f l) d = nth j l d.
Proof.
  revert n j; induction l as [| x l IH]; intros [| n] [| j] Hj; cbn; auto; try lia;
    apply IH; lia.
Qed.

Lemma update_nth_compose {A : Type} (n : nat) (f h : A -> A) (l : list A) :
  update_nth n f (update_nth n h l) = update_nth n (fun x => f (h x)) l.
Proof. revert n; induction l as [| x l IH]; intros [| n]; cbn; auto. rewrite IH; auto. Qed.

Lemma update_nth_Forall {A : Type} (P : A -> Prop) (n : nat) (f : A -> A) (l : list A) :
  (forall x, P x -> P (f x)) -> Forall P l -> Forall P (update_nth n f l).
Proof.
  intros Hf. revert n; induction l as [| x l IH]; intros [| n] H; cbn; auto;
    inversion H; subst; constructor; auto.
Qed.

Lemma update_nth_id {A : Type} (n : nat) (l : list A) :
  update_nth n (fun x => x) l = l.
Proof. revert n; induction l as [| x l IH]; intros [| n]; cbn; auto. rewrite IH; auto. Qed.

Lemma set_table_set_table (g : gui) (t1 t2 : list table_row) :
  set_table (set_table g t1) t2 = set_table g t2.
Proof. reflexivity. Qed.

Lemma set_table_table (g : gui) : set_table g (table g) = g.
Proof. destruct g; reflexivity. Qed.

Lemma deliver_app (l1 l2 : list event) (g : gui) :
  deliver (l1 ++ l2) g = deliver l2 (deliver l1 g).
Proof. unfold deliver. apply fold_left_app. Qed.

Lemma row_fold_app (l1 l2 : list event) (r : table_row) :
  row_fold (l1 ++ l2) r = row_fold l2 (row_fold l1 r).
Proof. unfold row_fold. apply fold_left_app. Qed.

(** Delivering events of one item [i] with a row [i] rewrites that row only. *)
Lemma deliver_item_row (i : nat) (evs : list event) (g : gui) :
  (i < length (table g))%nat ->
  Forall (fun e => exists p, e = Update i p) evs ->
  deliver evs g = set_table g (update_nth i (row_fold evs) (table g)).
Proof.
  revert g. induction evs as [| e evs IH]; intros g Hi Hall.
  - cbn. change (row_fold []) with (fun r : table_row => r).
    rewrite update_nth_id. symmetry. apply set_table_table.
  - inversion Hall as [| ? ? [p ->] Hrest]; subst.
    unfold deliver. cbn [fold_left handle_event]. unfold on_update.
    destruct (Nat.leb_spec (length (table g)) i); [lia |].
    fold (deliver evs (set_table g (update_nth i (on_update_row p) (table g)))).
    rewrite IH; cbn [table set_table]; [| rewrite update_nth_length; exact Hi | exact Hrest].
    rewrite set_table_set_table, update_nth_compose. reflexivity.
Qed.

(** The cases of the four steps of [_on_update] on a payload [p]. *)
Ltac on_update_cases p :=
  cbv beta iota delta [on_update_row upd_title upd_progress upd_status upd_error];
  repeat match goal with
         | |- context [dict_get ?k p] => destruct (dict_get k p) as [[? | ?] |]
         | |- context [if ?b then _ else _] => destruct b
         end; cbn [t_url t_title t_date t_progress].

Lemma on_update_row_keeps (p : payload) (r : table_row) :
  t_url (on_update_row p r) = t_url r /\ t_date (on_update_row p r) = t_date r.
Proof. on_update_cases p; split; reflexivity. Qed.

Lemma row_fold_keeps (evs : list event) (r : table_row) :
  t_url (row_fold evs r) = t_url r /\ t_date (row_fold evs r) = t_date r.
Proof.
  revert r. induction evs as [| e evs IH]; intros r; [auto |].
  unfold row_fold in *. cbn [fold_left]. destruct e as [i p |].
  - destruct (IH (on_update_row p r)) as [H1 H2]. rewrite H1, H2.
    apply on_update_row_keeps.
  - apply IH.
Qed.

Lemma on_update_row_progress (p : payload) (r : table_row) :
  (0 <= t_progress r <= 100) -> (0 <= t_progress (on_update_row p r) <= 100).
Proof.
  intros H.
  assert (Hs : forall c v, 0 <= c <= 100 -> 0 <= progress_set_value c v <= 100).
  { intros c v Hc. unfold progress_set_value.
    destruct (Z.leb_spec 0 v), (Z.leb_spec v 100); cbn; lia. }
  on_update_cases p; auto.
Qed.

Lemma hook_events_of (i : nat) (ds : list hook_dict) :
  Forall (fun e => exists p, e = Update i p) (flat_map (hook i) ds).
Proof.
  induction ds as [| d ds IH]; cbn; [constructor |].
  apply Forall_app; split; [| exact IH]. unfold hook.
  destruct (status_eqb (d_status d) "downloading");
    [| destruct (status_eqb (d_status d) "finished")];
    repeat constructor; eexists; reflexivity.
Qed.

Lemma process_item_events_of ydl (i : nat) (r : row) :
  Forall (fun e => exists p, e = Update i p) (process_item ydl i r).
Proof.
  unfold process_item. destruct (ydl i (url r)) as [init p ds dl]; cbn.
  constructor; [eexists; reflexivity |].
  destruct init as [e |]; [repeat constructor; eexists; reflexivity |].
  apply Forall_app; split.
  - destruct p as [e | [t |]]; cbn; [constructor | | constructor].
    destruct (String.eqb t ""); repeat constructor; eexists; reflexivity.
  - apply Forall_app; split; [apply hook_events_of |].
    destruct dl; repeat constructor; eexists; reflexivity.
Qed.

Lemma on_update_row_no_title (p : payload) (r : table_row) :
  dict_get "title" p = None -> t_title (on_update_row p r) = t_title r.
Proof.
  intros H. unfold on_update_row, upd_title. rewrite H.
  on_update_cases p; reflexivity.
Qed.

(** An [Error] payload leaves the row as it is: it has no title and no
    progress, and its Status cell [item(row, 4)] does not exist. *)
Lemma on_update_row_error (e : py_exception) (r : table_row) :
  on_update_row (error_payload e) r = r.
Proof. destruct e; reflexivity. Qed.

Lemma row_fold_hooks_title (i : nat) (ds : list hook_dict) (r : table_row) :
  t_title (row_fold (flat_map (hook i) ds) r) = t_title r.
Proof.
  revert r. induction ds as [| d ds IH]; intros r; [reflexivity |].
  cbn [flat_map]. rewrite row_fold_app, IH. unfold hook.
  destruct (status_eqb (d_status d) "downloading");
    [| destruct (status_eqb (d_status d) "finished")]; cbn;
    try destruct (_ && _); reflexivity.
Qed.

Lemma deliver_frame (evs : list event) (g : gui) :
  Forall (fun e => e <> Finished) evs ->
  deliver evs g = set_table g (table (deliver evs g)).
Proof.
  revert g. induction evs as [| e evs IH]; intros g Hf; [symmetry; apply set_table_table |].
  inversion Hf as [| ? ? He Hf']; subst.
  unfold deliver in *. cbn [fold_left]. rewrite (IH _ Hf').
  destruct e as [i p |]; [| congruence]. cbn [handle_event].
  unfold on_update; destruct (_ <=? _)%nat; [reflexivity |].
  rewrite set_table_set_table. cbn [table set_table]. reflexivity.
Qed.

(** ** Claims about the main window *)

(** X2: the progress shown in every row stays within [0..100] whatever the
    worker sends, percents above 100 included: [QProgressBar.setValue]
    ignores a value out of its range, and [_add_url] starts each bar at 0. *)
Theorem deliver_progress_in_range (evs : list event) (g : gui)
  (H : Forall (fun r => 0 <= t_progress r <= 100) (table g)) :
  Forall (fun r => 0 <= t_progress r <= 100) (table (deliver evs g)).
Proof.
  revert g H. induction evs as [| e evs IH]; intros g H; [exact H |].
  unfold deliver in *. cbn [fold_left]. apply IH.
  destruct e as [i p |]; cbn [handle_event]; [| exact H].
  unfold on_update. destruct (_ <=? _)%nat; [exact H |].
  cbn [table set_table]. apply update_nth_Forall; [| exact H].
  apply on_update_row_progress.
Qed.

Lemma row_fold_single (i : nat) (p : payload) (r : table_row) :
  row_fold [Update i p] r = on_update_row p r.
Proof. reflexivity. Qed.

Lemma row_fold_item ydl (i : nat) (r : row) (r0 : table_row) :
  let evs := process_item ydl i r in
  (raised_in_try (ydl i (url r)) = None -> t_progress (row_fold evs r0) = 100) /\
  (ydl_init (ydl i (url r)) <> None -> t_progress (row_fold evs r0) = 0) /\
  (raised_in_try (ydl i (url r)) <> None -> row_fold evs r0 = row_fold (removelast evs) r0) /\
  t_title (row_fold evs r0) =
    match ydl_init (ydl i (url r)), ydl_probe (ydl i (url r)) with
    | None, ProbeReturns (Some t) => if String.eqb t "" then t_title r0 else t
    | _, _ => t_title r0
    end.
Proof.
  cbn zeta. unfold process_item, raised_in_try. destruct (ydl i (url r)) as [init p ds dl]; cbn zeta.
  cbn [ydl_init ydl_probe ydl_download ydl_progress].
  destruct init as [e |]; cbv beta iota.
  - cbn [removelast]. unfold row_fold. cbn [fold_left]. rewrite on_update_row_error.
    split; [discriminate | split; [intros _; reflexivity | split; reflexivity]].
  - set (S0 := Update i [("status", VStr "Starting"); ("progress", VInt 0)]).
    set (mid := (probe_events i p ++ flat_map (hook i) ds)%list).
    assert (Hev : forall x, S0 :: (probe_events i p ++ flat_map (hook i) ds ++ [x]) =
                            (S0 :: mid) ++ [x])
      by (intros x; subst mid; cbn [app]; rewrite app_assoc; reflexivity).
    assert (Htitle : t_title (row_fold (S0 :: mid) r0) =
                     match p with
                     | ProbeReturns (Some t) => if String.eqb t "" then t_title r0 else t
                     | _ => t_title r0
                     end).
    { change (S0 :: mid) with ([S0] ++ mid)%list. subst mid.
      rewrite !row_fold_app, row_fold_hooks_title. unfold S0. rewrite row_fold_single.
      destruct p as [e | [t |]]; cbn [probe_events]; try reflexivity.
      destruct (String.eqb t ""); reflexivity. }
    destruct dl as [e |]; rewrite Hev, row_fold_app, removelast_last, row_fold_single.
    + rewrite on_update_row_error.
      split; [discriminate | split; [intros H; exfalso; apply H; reflexivity |]].
      split; [reflexivity | exact Htitle].
    + split; [intros _; reflexivity |].
      split; [intros H; exfalso; apply H; reflexivity |].
      split; [intros H; exfalso; apply H; reflexivity |].
      rewrite on_update_row_no_title by reflexivity. exact Htitle.
Qed.

Lemma deliver_item ydl (g : gui) (i : nat) (r : row)
  (Hi : (i < length (table g))%nat) :
  let evs := process_item ydl i r in
  let g' := deliver evs g in
  let r0 := nth i (table g) empty_row in
  let r1 := nth i (table g') empty_row in
  g' = set_table g (table g') /\
  length (table g') = length (table g) /\
  (forall j, j <> i -> nth j (table g') empty_row = nth j (table g) empty_row) /\
  t_url r1 = t_url r0 /\ t_date r1 = t_date r0 /\
  (raised_in_try (ydl i (url r)) = None -> t_progress r1 = 100) /\
  (ydl_init (ydl i (url r)) <> None -> t_progress r1 = 0) /\
  (raised_in_try (ydl i (url r)) <> None -> r1 = row_fold (removelast evs) r0) /\
  t_title r1 =
    match ydl_init (ydl i (url r)), ydl_probe (ydl i (url r)) with
    | None, ProbeReturns (Some t) => if String.eqb t "" then t_title r0 else t
    | _, _ => t_title r0
    end.
Proof.
  cbn zeta. rewrite (deliver_item_row i _ g Hi (process_item_events_of ydl i r)).
  cbn [table set_table].
  rewrite update_nth_same by exact Hi.
  destruct (row_fold_keeps (process_item ydl i r) (nth i (table g) empty_row)) as [Hu Hd].
  destruct (row_fold_item ydl i r (nth i (table g) empty_row)) as (Hp & Hp0 & He & Ht).
  split; [reflexivity |]. split; [apply update_nth_length |].
  split; [intros j Hj; apply update_nth_other; exact Hj |].
  auto 10.
Qed.

(** X3: delivering the events of item [i] to a window whose table has a row
    [i] leaves the rest of the window alone.  Row [i] keeps its url and date;
    its progress ends at 100 when the [try] block raised nothing and at 0 when
    [YoutubeDL(opts)] raised.  When the [try] block raised, the final [Error]
    event changes nothing: the table has no Status column, so no row ever
    shows [Done] or the error message.  The title becomes the probed one when
    the probe ran and returned a non-empty title. *)
Theorem deliver_item_outcome ydl (g : gui) (i : nat) (r : row)
  (Hi : (i < length (table g))%nat) :
  let evs := process_item ydl i r in
  let g' := deliver evs g in
  let r0 := nth i (table g) empty_row in
  let r1 := nth i (table g') empty_row in
  g' = set_table g (table g') /\
  length (table g') = length (table g) /\
  (forall j, j <> i -> nth j (table g') empty_row = nth j (table g) empty_row) /\
  t_url r1 = t_url r0 /\ t_date r1 = t_date r0 /\
  (raised_in_try (ydl i (url r)) = None -> t_progress r1 = 100) /\
  (ydl_init (ydl i (url r)) <> None -> t_progress r1 = 0) /\
  (raised_in_try (ydl i (url r)) <> None -> r1 = row_fold (removelast evs) r0) /\
  t_title r1 =
    match ydl_init (ydl i (url r)), ydl_probe (ydl i (url r)) with
    | None, ProbeReturns (Some t) => if String.eqb t "" then t_title r0 else t
    | _, _ => t_title r0
    end.
Proof. exact (deliver_item ydl g i r Hi). Qed.

Lemma deliver_process_all ydl (i : nat) (rs : list row) (g : gui) :
  (i + length rs <= length (table g))%nat ->
  let g' := deliver (process_all ydl i rs) g in
  g' = set_table g (table g') /\
  length (table g') = length (table g) /\
  (forall j, (j < i \/ i + length rs <= j)%nat ->
             nth j (table g') empty_row = nth j (table g) empty_row) /\
  (forall k, (k < length rs)%nat ->
     let b := ydl (i + k)%nat (url (nth k rs {| url := "" |})) in
     (raised_in_try b = None -> t_progress (nth (i + k)%nat (table g') empty_row) = 100) /\
     (ydl_init b <> None -> t_progress (nth (i + k)%nat (table g') empty_row) = 0)).
Proof.
  revert i g. induction rs as [| r rs IH]; intros i g Hlen; cbn zeta.
  - cbn [process_all]. unfold deliver; cbn [fold_left].
    split; [symmetry; apply set_table_table | split; [reflexivity | split; [reflexivity |]]].
    intros k Hk; cbn in Hk; lia.
  - cbn [process_all]. rewrite deliver_app.
    cbn [length] in Hlen.
    destruct (deliver_item ydl g i r ltac:(lia)) as (F1 & L1 & O1 & _ & _ & P1 & Z1 & _).
    cbn zeta in *.
    set (g1 := deliver (process_item ydl i r) g) in *.
    destruct (IH (S i) g1 ltac:(lia)) as (F2 & L2 & O2 & S2).
    cbn zeta in *.
    set (g2 := deliver (process_all ydl (S i) rs) g1) in *.
    split; [rewrite F2, F1 at 1; reflexivity |].
    split; [lia |]. split.
    + intros j Hj. rewrite O2 by (cbn [length] in Hj; lia). apply O1. cbn [length] in Hj; lia.
    + intros [| k] Hk.
      * rewrite Nat.add_0_r. rewrite O2 by lia. cbn [nth]. split; assumption.
      * cbn [length] in Hk. replace (i + S k)%nat with (S i + k)%nat by lia.
        cbn [nth]. apply S2. lia.
Qed.

Lemma max_res_value_in_range (g : gui) :
  0 <= max_res_index g < 5 ->
  max_res_value g =
  Some (nth (Z.to_nat (max_res_index g)) [None; Some 2160; Some 1440; Some 1080; Some 720] None).
Proof.
  intros H. unfold max_res_value.
  assert (max_res_index g = 0 \/ max_res_index g = 1 \/ max_res_index g = 2 \/
          max_res_index g = 3 \/ max_res_index g = 4) as Hc by lia.
  destruct Hc as [-> | [-> | [-> | [-> | ->]]]]; reflexivity.
Qed.

Lemma max_res_value_out_of_range (g : gui) :
  ~ (0 <= max_res_index g < 5) -> max_res_value g = None.
Proof.
  intros H. unfold max_res_value, combo_text.
  replace ((0 <=? max_res_index g) && (max_res_index g <? Z.of_nat (length max_res_items)))
    with false; [reflexivity |].
  cbn [length max_res_items Z.of_nat Pos.of_succ_nat Pos.succ].
  symmetry. apply andb_false_iff.
  destruct (Z.leb_spec 0 (max_res_index g)); [right; apply Z.ltb_ge; lia | left; reflexivity].
Qed.

(** X4: [max_res_val = None if max_res_text=="No cap" else int(max_res_text)]
    fails exactly when the resolution box has no current item: every one of
    its five items parses ("No cap" or a number) and the empty text of
    index [-1] or any other index does not. *)
Theorem max_res_value_none_iff (g : gui) :
  max_res_value g = None <-> ~ (0 <= max_res_index g < 5).
Proof.
  split.
  - intros H Hr. rewrite (max_res_value_in_range g Hr) in H. discriminate.
  - apply max_res_value_out_of_range.
Qed.

Lemma start_guard path_join mkdir_fails (g : gui)
  (H : table g = [] \/ (exists w, worker g = Some w /\ worker_running g = true) \/
       mkdir_fails (out_dir g) = true \/ ~ (0 <= max_res_index g < 5)) :
  start path_join mkdir_fails g = g.
Proof.
  unfold start.
  destruct H as [H | [[w [Hw Hr]] | [H | H]]].
  - rewrite H. reflexivity.
  - destruct (length (table g) =? 0)%nat; [reflexivity |]. rewrite Hw, Hr. reflexivity.
  - destruct (length (table g) =? 0)%nat; [reflexivity |].
    destruct (match worker g with Some _ => worker_running g | None => false end);
      [reflexivity |]. rewrite H. reflexivity.
  - rewrite (max_res_value_out_of_range g H).
    destruct (length (table g) =? 0)%nat; [reflexivity |].
    destruct (match worker g with Some _ => worker_running g | None => false end);
      [reflexivity |]. destruct (mkdir_fails (out_dir g)); reflexivity.
Qed.

Lemma start_format_some (g : gui) :
  0 <= max_res_index g < 5 ->
  exists f, build_format (nth (Z.to_nat (max_res_index g))
                              [None; Some 2160; Some 1440; Some 1080; Some 720] None) = Some f.
Proof.
  intros H.
  assert (max_res_index g = 0 \/ max_res_index g = 1 \/ max_res_index g = 2 \/
          max_res_index g = 3 \/ max_res_index g = 4) as Hc by lia.
  destruct Hc as [-> | [-> | [-> | [-> | ->]]]]; eexists; cbv; reflexivity.
Qed.

(** X6: when [_start] goes ahead it hands the worker the table's URLs in
    row order with the stop flag clear, disables Start and enables Stop, and
    asks for the format of the displayed choice: the uncapped selector for
    "No cap", a height filter on exactly the shown number otherwise; the
    merge format is [mkv] exactly for the first format item. *)
Theorem start_launches_worker path_join mkdir_fails (g : gui)
  (Hne : table g <> [])
  (Hidle : match worker g with Some _ => worker_running g | None => false end = false)
  (Hmk : mkdir_fails (out_dir g) = false)
  (Hidx : 0 <= max_res_index g < 5) :
  let g1 := start path_join mkdir_fails g in
  exists w, worker g1 = Some w /\
    map url (rows w) = map t_url (table g) /\ stop_flag w = false /\
    dict_get "format" (opts w) =
      option_map VStr (build_format
        (nth (Z.to_nat (max_res_index g)) [None; Some 2160; Some 1440; Some 1080; Some 720] None)) /\
    dict_get "merge_output_format" (opts w) =
      Some (VStr (if format_index g =? 0 then "mkv" else "mp4")) /\
    table g1 = table g /\ worker_running g1 = true /\
    btn_start_enabled g1 = false /\ btn_stop_enabled g1 = true.
Proof.
  cbn zeta. unfold start.
  destruct (Nat.eqb_spec (length (table g)) 0) as [H0 | _];
    [destruct (table g); [congruence | discriminate] |].
  rewrite Hidle, Hmk, (max_res_value_in_range g Hidx).
  destruct (start_format_some g Hidx) as [fmt Hf]. rewrite Hf.
  eexists; split; [reflexivity |]. cbn [rows opts stop_flag DLWorker_init table].
  split; [rewrite map_map; reflexivity |].
  split; [reflexivity |]. split; [reflexivity |]. split; [reflexivity |].
  repeat split.
Qed.

(** X7: started on a non-empty table, a run that nobody stops ends with the
    table of the same length, Start enabled again and Stop disabled.  Each
    row's progress bar shows 100 when the [try] block of its URL raised
    nothing and 0 when [YoutubeDL(opts)] raised; no row shows the outcome as
    text, the table having no Status column. *)
Theorem start_run_to_end ydl path_join mkdir_fails (g : gui)
  (Hne : table g <> [])
  (Hidle : match worker g with Some _ => worker_running g | None => false end = false)
  (Hmk : mkdir_fails (out_dir g) = false)
  (Hidx : 0 <= max_res_index g < 5) :
  let g1 := start path_join mkdir_fails g in
  exists w, worker g1 = Some w /\
    let g2 := deliver (run ydl (fun _ => 0%nat) w) g1 in
    length (table g2) = length (table g) /\
    (forall j, (j < length (table g))%nat ->
       let b := ydl j (t_url (nth j (table g) empty_row)) in
       (raised_in_try b = None -> t_progress (nth j (table g2) empty_row) = 100) /\
       (ydl_init b <> None -> t_progress (nth j (table g2) empty_row) = 0)) /\
    btn_start_enabled g2 = true /\ btn_stop_enabled g2 = false.
Proof.
  cbn zeta. unfold start.
  destruct (Nat.eqb_spec (length (table g)) 0) as [H0 | _];
    [destruct (table g); [congruence | discriminate] |].
  rewrite Hidle, Hmk, (max_res_value_in_range g Hidx).
  destruct (start_format_some g Hidx) as [fmt Hf]. rewrite Hf.
  eexists; split; [reflexivity |]. cbn zeta.
  set (rs := map (fun r => {| url := t_url r |}) (table g)).
  set (g1 := {| table := table g; url_input := url_input g; out_dir := out_dir g;
                max_res_index := max_res_index g; format_index := format_index g;
                btn_start_enabled := false; btn_stop_enabled := true;
                worker := Some (DLWorker_init rs (start_opts path_join g fmt));
                worker_running := true |}).
  unfold run, DLWorker_init. cbn [rows].
  rewrite (run_from_prefix ydl (fun _ => 0%nat) (length rs)); [| reflexivity | intros; reflexivity
                                                            | intros; lia | lia].
  rewrite firstn_all, deliver_app.
  assert (Hl : length rs = length (table g)) by (subst rs; apply length_map).
  destruct (deliver_process_all ydl 0 rs g1) as (_ & L & _ & S);
    [cbn [table g1]; lia |].
  cbn zeta in L, S.
  change (deliver [Finished] ?h) with (on_done h).
  cbn [on_done table btn_start_enabled btn_stop_enabled].
  split; [exact L |]. split; [| split; reflexivity].
  intros j Hj. rewrite <- Hl in Hj. specialize (S j Hj). cbn [Nat.add] in S.
  assert (Hu : url (nth j rs {| url := "" |}) = t_url (nth j (table g) empty_row)).
  { subst rs. change {| url := "" |} with ((fun r => {| url := t_url r |}) empty_row).
    rewrite map_nth. reflexivity. }
  cbn zeta in S |- *. rewrite Hu in S. cbn [table]. exact S.
Qed.

Lemma digit_value_char (d : Z) : 0 <= d < 10 -> digit_value (digit_char d) = Some d.
Proof.
  intros H. unfold digit_value, digit_char.
  rewrite nat_ascii_embedding by lia.
  replace ((48 <=? 48 + Z.to_nat d) && (48 + Z.to_nat d <=? 57))%nat with true
    by (symmetry; apply andb_true_iff; split; apply Nat.leb_le; lia).
  f_equal. lia.
Qed.

Lemma digit_char_not_space (d : Z) : 0 <= d < 10 -> c_isspace (digit_char d) = false.
Proof.
  intros H. unfold c_isspace, digit_char. rewrite nat_ascii_embedding by lia.
  apply orb_false_iff; split; [apply andb_false_iff; right; apply Nat.leb_gt; lia |].
  apply Nat.eqb_neq. lia.
Qed.

Lemma digit_char_not_sign (d : Z) (c : ascii) :
  0 <= d < 10 -> (nat_of_ascii c < 48)%nat -> Ascii.eqb (digit_char d) c = false.
Proof.
  intros H Hc. destruct (Ascii.eqb_spec (digit_char d) c) as [E | _]; [| reflexivity].
  exfalso. rewrite <- E in Hc. unfold digit_char in Hc.
  rewrite nat_ascii_embedding in Hc by lia. lia.
Qed.

Lemma decimal_digits_shape (f : nat) (n : Z) (acc : string) :
  exists d t, 0 <= d < 10 /\ decimal_digits (S f) n acc = String (digit_char d) t.
Proof.
  revert n acc. induction f as [| f IH]; intros n acc.
  - exists (n mod 10), acc. split; [apply Z.mod_pos_bound; lia |].
    cbn [decimal_digits]. destruct (n <? 10); reflexivity.
  - cbn [decimal_digits]. destruct (n <? 10).
    + exists (n mod 10), acc. split; [apply Z.mod_pos_bound; lia | reflexivity].
    + apply IH.
Qed.

Lemma decimal_digits_rstrip (f : nat) (n : Z) (acc : string) :
  c_rstrip acc = acc -> c_rstrip (decimal_digits f n acc) = decimal_digits f n acc.
Proof.
  revert n acc. induction f as [| f IH]; intros n acc H; [exact H |].
  cbn [decimal_digits].
  assert (H' : c_rstrip (String (digit_char (n mod 10)) acc) =
               String (digit_char (n mod 10)) acc).
  { cbn [c_rstrip]. rewrite H, digit_char_not_space by (apply Z.mod_pos_bound; lia).
    rewrite andb_false_r. reflexivity. }
  destruct (n <? 10); [exact H' | apply IH, H'].
Qed.

Lemma decimal_digits_S (f : nat) (n : Z) (acc : string) :
  decimal_digits (S f) n acc =
  if n <? 10 then String (digit_char (n mod 10)) acc
  else decimal_digits f (n / 10) (String (digit_char (n mod 10)) acc).
Proof. reflexivity. Qed.

Lemma parse_decimal_digits (f : nat) (n : Z) (acc : string) (a : Z) (b : bool) :
  0 <= n < 10 ^ Z.of_nat (S f) ->
  exists p, parse_digits (decimal_digits (S f) n acc) a b = parse_digits acc (a * p + n) true.
Proof.
  revert n acc a b. induction f as [| f IH]; intros n acc a b Hn.
  - exists 10. cbn [decimal_digits]. cbn in Hn. replace (n <? 10) with true by lia.
    cbn [parse_digits]. rewrite digit_value_char by (apply Z.mod_pos_bound; lia).
    rewrite Z.mod_small by lia. f_equal; lia.
  - rewrite decimal_digits_S. destruct (Z.ltb_spec n 10) as [Hlt | Hge].
    + exists 10. cbn [parse_digits]. rewrite digit_value_char by (apply Z.mod_pos_bound; lia).
      rewrite Z.mod_small by lia. f_equal; lia.
    + assert (Hq : 0 <= n / 10 < 10 ^ Z.of_nat (S f)).
      { split; [apply Z.div_pos; lia |]. apply Z.div_lt_upper_bound; [lia |].
        replace (10 * 10 ^ Z.of_nat (S f)) with (10 ^ Z.of_nat (S (S f))); [lia |].
        rewrite Nat2Z.inj_succ, Z.pow_succ_r by lia. reflexivity. }
      destruct (IH (n / 10) (String (digit_char (n mod 10)) acc) a b Hq) as [p Hp].
      exists (10 * p). rewrite Hp. cbn [parse_digits].
      rewrite digit_value_char by (apply Z.mod_pos_bound; lia).
      f_equal. pose proof (Z.div_mod n 10). lia.
Qed.

Lemma decimal_fuel (n : Z) :
  0 <= n -> n < 10 ^ Z.of_nat (S (Z.to_nat (Z.log2 n))).
Proof.
  intros H. destruct (Z.eq_dec n 0) as [-> | Hn0]; [cbn; lia |].
  destruct (Z.log2_spec n) as [_ Hlt]; [lia |].
  assert (Hl := Z.log2_nonneg n).
  rewrite Nat2Z.inj_succ, Z2Nat.id by lia.
  eapply Z.lt_le_trans; [exact Hlt |].
  apply Z.pow_le_mono_l. lia.
Qed.

Lemma count_digits_decimal (f : nat) (n : Z) (acc : string) :
  count_digits acc = String.length acc ->
  count_digits (decimal_digits f n acc) = String.length (decimal_digits f n acc).
Proof.
  revert n acc. induction f as [| f IH]; intros n acc H; [exact H |].
  cbn [decimal_digits].
  assert (H' : count_digits (String (digit_char (n mod 10)) acc) =
               String.length (String (digit_char (n mod 10)) acc)).
  { cbn [count_digits String.length].
    rewrite digit_value_char by (apply Z.mod_pos_bound; lia). rewrite H. reflexivity. }
  destruct (n <? 10); [exact H' | apply IH, H'].
Qed.

Lemma py_int_of_decimal (f : nat) (n : Z) :
  0 <= n < 10 ^ Z.of_nat (S f) ->
  c_rstrip (c_lstrip (decimal_digits (S f) n "")) = decimal_digits (S f) n "" /\
  parse_digits (decimal_digits (S f) n "") 0 false = Some n.
Proof.
  intros Hn. destruct (decimal_digits_shape f n "") as (d & t & Hd & E).
  split.
  - rewrite E. cbn [c_lstrip]. rewrite digit_char_not_space by exact Hd.
    rewrite <- E. apply decimal_digits_rstrip. reflexivity.
  - destruct (parse_decimal_digits f n "" 0 false Hn) as [p Hp]. rewrite Hp. reflexivity.
Qed.

(** [int(str(z)) == z] for an [int] [str] accepts: the digits of [str(z)]
    are within [int]'s limit as well. *)
Lemma py_int_str_int (z : Z) :
  Z.abs z < 10 ^ 4300 -> py_int_of_string (int_text z) = Some z.
Proof.
  intros Hz.
  pose proof (proj2 (int_text_length (Z.abs z) 4299 (Z.abs_nonneg z)) Hz) as Hlen.
  unfold int_text in Hlen |- *. rewrite (Z.abs_eq (Z.abs z)) in Hlen by apply Z.abs_nonneg.
  replace (Z.abs z <? 0) with false in Hlen by (symmetry; apply Z.ltb_ge, Z.abs_nonneg).
  unfold py_int_of_string.
  set (f := Z.to_nat (Z.log2 (Z.abs z))) in *.
  destruct (Z.ltb_spec z 0) as [Hneg | Hpos].
  - rewrite Z.abs_neq in Hlen by lia.
    assert (Hn : 0 <= - z < 10 ^ Z.of_nat (S f)).
    { split; [lia |]. subst f. rewrite Z.abs_neq by lia. apply decimal_fuel. lia. }
    assert (Hc : count_digits ("-" ++ decimal_digits (S f) (- z) "") =
                 String.length (decimal_digits (S f) (- z) ""))
      by (cbn [append count_digits]; apply count_digits_decimal; reflexivity).
    rewrite Hc. apply Nat.ltb_ge in Hlen. rewrite Hlen.
    destruct (py_int_of_decimal f (- z) Hn) as [_ Hp].
    cbn [append c_lstrip].
    replace (c_isspace "-"%char) with false by reflexivity.
    cbn [c_rstrip]. rewrite decimal_digits_rstrip by reflexivity.
    destruct (decimal_digits_shape f (- z) "") as (d & t & Hd & E).
    rewrite E at 1. cbn [String.eqb andb].
    replace (Ascii.eqb "-" "-") with true by reflexivity.
    rewrite Hp. cbn. f_equal. lia.
  - rewrite Z.abs_eq in Hlen by lia.
    assert (Hn : 0 <= z < 10 ^ Z.of_nat (S f)).
    { split; [lia |]. subst f. rewrite Z.abs_eq by lia. apply decimal_fuel. lia. }
    rewrite count_digits_decimal by reflexivity.
    apply Nat.ltb_ge in Hlen. rewrite Hlen.
    destruct (py_int_of_decimal f z Hn) as [Hs Hp]. rewrite Hs.
    destruct (decimal_digits_shape f z "") as (d & t & Hd & E).
    rewrite E. rewrite !digit_char_not_sign by (cbn; lia).
    rewrite <- E. exact Hp.
Qed.

Lemma c_int_abs_small (i : Z) : - 2 ^ 31 <= i < 2 ^ 31 -> Z.abs i < 10 ^ 4300.
Proof.
  intros H.
  assert (HB : 2 ^ 31 < 10 ^ 4300).
  { apply Z.lt_le_trans with (10 ^ 10); [reflexivity | apply Z.pow_le_mono_r; lia]. }
  revert HB. generalize (10 ^ 4300). intros B HB. lia.
Qed.

Lemma dict_get_filter_other (k k' : string) (s : settings) :
  String.eqb k k' = false ->
  dict_get k (filter (fun e => negb (String.eqb (fst e) k')) s) = dict_get k s.
Proof.
  intros Hk. induction s as [| [k1 v1] s IH]; [reflexivity |].
  cbn [filter fst]. destruct (String.eqb_spec k1 k') as [-> | Hne]; cbn [negb].
  - cbn [dict_get]. rewrite Hk. exact IH.
  - cbn [dict_get]. rewrite IH. reflexivity.
Qed.

Lemma dict_get_as_text (k : string) (s : settings) :
  dict_get k (settings_as_text s) = option_map as_text (dict_get k s).
Proof.
  induction s as [| [k1 v1] s IH]; [reflexivity |].
  cbn [settings_as_text map fst snd dict_get].
  destruct (String.eqb k k1); [reflexivity | exact IH].
Qed.

Lemma close_event_values (g : gui) (s : settings) :
  dict_get "out_dir" (close_event g s) = Some (VStr (out_dir g)) /\
  dict_get "max_res" (close_event g s) = Some (VInt (max_res_index g)) /\
  dict_get "fmt" (close_event g s) = Some (VInt (format_index g)).
Proof.
  unfold close_event, settings_set. cbn [dict_get String.eqb].
  split; [| split; [| reflexivity]];
  rewrite dict_get_filter_other by reflexivity; cbn [dict_get String.eqb];
  [rewrite dict_get_filter_other by reflexivity; cbn [dict_get String.eqb] |];
  reflexivity.
Qed.

Lemma set_current_index_valid (items : list string) (i : Z) :
  -1 <= i < Z.of_nat (length items) -> Z.of_nat (length items) <= 2 ^ 31 ->
  set_current_index items i = Some i.
Proof.
  intros H Hl. unfold set_current_index.
  destruct (Z.leb_spec (- 2 ^ 31) i); destruct (Z.ltb_spec i (2 ^ 31));
  destruct (Z.leb_spec 0 i); destruct (Z.ltb_spec i (Z.of_nat (length items)));
    cbv iota beta delta [andb]; try f_equal; lia.
Qed.

Lemma set_current_index_range (items : list string) (i j : Z) :
  set_current_index items i = Some j -> -1 <= j < Z.of_nat (length items).
Proof.
  unfold set_current_index. destruct (_ && _); [| discriminate].
  intros H; injection H as <-.
  destruct (Z.leb_spec 0 i); destruct (Z.ltb_spec i (Z.of_nat (length items)));
    cbv iota beta delta [andb]; lia.
Qed.

Lemma restore_index_stored (items : list string) (i : Z) (text : bool) :
  -1 <= i < Z.of_nat (length items) -> Z.of_nat (length items) <= 2 ^ 31 ->
  restore_index items (if text then as_text (VInt i) else VInt i) = Some i.
Proof.
  intros H Hl. unfold restore_index.
  replace (py_int (if text then as_text (VInt i) else VInt i)) with (Some i)
    by (destruct text; [cbn [as_text py_int]; symmetry; apply py_int_str_int, c_int_abs_small;
                        lia | reflexivity]).
  apply set_current_index_valid; assumption.
Qed.

(** X9: the preferences [closeEvent] writes are those [_restore] reads back
    on the next start: output folder, resolution and format index, whether
    the store keeps the integers or hands them back as text; the rest of the
    new window is untouched.  The indices are those a combo box can hold,
    [-1] for no item included. *)
Theorem close_restore_roundtrip (g g0 : gui) (s : settings) (text : bool)
  (Hm : -1 <= max_res_index g < 5) (Hf : -1 <= format_index g < 2) :
  let s' := close_event g s in
  exists g', restore (if text then settings_as_text s' else s') g0 = Some g' /\
    out_dir g' = out_dir g /\ max_res_index g' = max_res_index g /\
    format_index g' = format_index g /\
    table g' = table g0 /\ url_input g' = url_input g0 /\ worker g' = worker g0.
Proof.
  cbn zeta. destruct (close_event_values g s) as (Ho & Hr & Hfm).
  assert (Hv : forall k v, dict_get k (close_event g s) = Some v ->
            settings_value (if text then settings_as_text (close_event g s)
                            else close_event g s) k (VInt 0) =
            (if text then as_text v else v) /\
            settings_value (if text then settings_as_text (close_event g s)
                            else close_event g s) k (VStr (out_dir g0)) =
            (if text then as_text v else v)).
  { intros k v Hk. unfold settings_value.
    destruct text; [rewrite dict_get_as_text |]; rewrite Hk; split; reflexivity. }
  unfold restore.
  destruct (Hv _ _ Ho) as [_ ->]. destruct (Hv _ _ Hr) as [-> _].
  destruct (Hv _ _ Hfm) as [-> _].
  replace (if text then as_text (VStr (out_dir g)) else VStr (out_dir g))
    with (VStr (out_dir g)) by (destruct text; reflexivity).
  rewrite !restore_index_stored by (cbn; lia).
  eexists; split; [reflexivity |]. cbn. repeat split.
Qed.

(** X10: with none of the three keys stored (a first start), [_restore]
    keeps the output folder the window was built with and selects the
    first item of both combo boxes, "No cap" and "MKV (safe)". *)
Theorem restore_defaults (s : settings) (g : gui)
  (Hnone : dict_get "out_dir" s = None /\ dict_get "max_res" s = None /\
           dict_get "fmt" s = None) :
  exists g', restore s g = Some g' /\ out_dir g' = out_dir g /\
    combo_text max_res_items (max_res_index g') = "No cap" /\
    combo_text format_items (format_index g') = "MKV (safe)" /\
    table g' = table g.
Proof.
  destruct Hnone as (H1 & H2 & H3). unfold restore, settings_value.
  rewrite H1, H2, H3. eexists; split; [reflexivity |]. cbn. auto.
Qed.

(** X11: the window [_restore] yields has both combo indices in range or at
    [-1], whatever the store held; with no resolution item selected,
    [_start] then does nothing. *)
Theorem restore_indices_valid path_join mkdir_fails (s : settings) (g g' : gui)
  (H : restore s g = Some g') :
  -1 <= max_res_index g' < 5 /\ -1 <= format_index g' < 2 /\
  (max_res_index g' = -1 -> start path_join mkdir_fails g' = g').
Proof.
  unfold restore in H.
  destruct (settings_value s "out_dir" (VStr (out_dir g))); [| discriminate].
  destruct (restore_index max_res_items _) as [m |] eqn:Em; [| discriminate].
  destruct (restore_index format_items _) as [f |] eqn:Ef; [| discriminate].
  injection H as <-. cbn [max_res_index format_index].
  unfold restore_index in Em, Ef.
  destruct (py_int (settings_value s "max_res" (VInt 0))); [| discriminate].
  destruct (py_int (settings_value s "fmt" (VInt 0))); [| discriminate].
  apply set_current_index_range in Em, Ef. cbn in Em, Ef.
  split; [lia | split; [lia |]].
  intros Hm. apply start_guard. right; right; right. cbn [max_res_index]. lia.
Qed.










(** ** Witnesses of the window claims *)

Lemma deliver_progress_in_range_witness :
  Forall (fun r => 0 <= t_progress r <= 100) (table demo_gui) /\
  Forall (fun r => 0 <= t_progress r <= 100)
    (table (deliver (run demo_ydl (fun _ => 0%nat) (DLWorker_init demo_rows [])) demo_gui)).
Proof.
  assert (H : Forall (fun r => 0 <= t_progress r <= 100) (table demo_gui))
    by (cbn; repeat constructor; discriminate).
  split; [exact H |].
  exact (deliver_progress_in_range
           (run demo_ydl (fun _ => 0%nat) (DLWorker_init demo_rows [])) demo_gui H).
Defined.

Lemma deliver_item_outcome_witness :
  (0 < length (table demo_gui))%nat /\
  let evs := process_item demo_ydl 0 {| url := "a" |} in
  let g' := deliver evs demo_gui in
  let r0 := nth 0 (table demo_gui) empty_row in
  let r1 := nth 0 (table g') empty_row in
  g' = set_table demo_gui (table g') /\
  length (table g') = length (table demo_gui) /\
  (forall j, j <> 0%nat -> nth j (table g') empty_row = nth j (table demo_gui) empty_row) /\
  t_url r1 = t_url r0 /\ t_date r1 = t_date r0 /\
  (raised_in_try (demo_ydl 0 (url {| url := "a" |})) = None -> t_progress r1 = 100) /\
  (ydl_init (demo_ydl 0 (url {| url := "a" |})) <> None -> t_progress r1 = 0) /\
  (raised_in_try (demo_ydl 0 (url {| url := "a" |})) <> None ->
     r1 = row_fold (removelast evs) r0) /\
  t_title r1 =
    match ydl_init (demo_ydl 0 (url {| url := "a" |})),
          ydl_probe (demo_ydl 0 (url {| url := "a" |})) with
    | None, ProbeReturns (Some t) => if String.eqb t "" then t_title r0 else t
    | _, _ => t_title r0
    end.
Proof.
  split; [cbn; lia |].
  apply (deliver_item_outcome demo_ydl demo_gui 0 {| url := "a" |}). cbn; lia.
Defined.

Lemma start_launches_worker_witness :
  (table demo_gui <> [] /\
   match worker demo_gui with Some _ => worker_running demo_gui | None => false end = false /\
   (fun _ : string => false) (out_dir demo_gui) = false /\
   0 <= max_res_index demo_gui < 5) /\
  let g1 := start (fun a b => (a ++ "/" ++ b)%string) (fun _ => false) demo_gui in
  exists w, worker g1 = Some w /\
    map url (rows w) = map t_url (table demo_gui) /\ stop_flag w = false /\
    dict_get "format" (opts w) =
      option_map VStr (build_format
        (nth (Z.to_nat (max_res_index demo_gui))
             [None; Some 2160; Some 1440; Some 1080; Some 720] None)) /\
    dict_get "merge_output_format" (opts w) =
      Some (VStr (if format_index demo_gui =? 0 then "mkv" else "mp4")) /\
    table g1 = table demo_gui /\ worker_running g1 = true /\
    btn_start_enabled g1 = false /\ btn_stop_enabled g1 = true.
Proof.
  split; [split; [discriminate | split; [reflexivity | split; [reflexivity | cbn; lia]]] |].
  apply (start_launches_worker (fun a b => (a ++ "/" ++ b)%string) (fun _ => false) demo_gui).
  - discriminate.
  - reflexivity.
  - reflexivity.
  - cbn; lia.
Defined.

Lemma start_run_to_end_witness :
  (table demo_gui <> [] /\
   match worker demo_gui with Some _ => worker_running demo_gui | None => false end = false /\
   (fun _ : string => false) (out_dir demo_gui) = false /\ 0 <= max_res_index demo_gui < 5) /\
  let g1 := start (fun a b => (a ++ "/" ++ b)%string) (fun _ => false) demo_gui in
  exists w, worker g1 = Some w /\
    let g2 := deliver (run demo_ydl (fun _ => 0%nat) w) g1 in
    length (table g2) = length (table demo_gui) /\
    (forall j, (j < length (table demo_gui))%nat ->
       let b := demo_ydl j (t_url (nth j (table demo_gui) empty_row)) in
       (raised_in_try b = None -> t_progress (nth j (table g2) empty_row) = 100) /\
       (ydl_init b <> None -> t_progress (nth j (table g2) empty_row) = 0)) /\
    btn_start_enabled g2 = true /\ btn_stop_enabled g2 = false.
Proof.
  assert (Hidx : 0 <= max_res_index demo_gui < 5) by (cbn; lia).
  split; [split; [discriminate | split; [reflexivity | split; [reflexivity | exact Hidx]]] |].
  apply (start_run_to_end demo_ydl (fun a b => (a ++ "/" ++ b)%string) (fun _ => false)
           demo_gui); [discriminate | reflexivity | reflexivity | exact Hidx].
Defined.

Lemma close_restore_roundtrip_witness :
  (-1 <= max_res_index demo_gui < 5 /\ -1 <= format_index demo_gui < 2) /\
  let s' := close_event demo_gui [("fmt", VStr "x")] in
  exists g', restore (settings_as_text s') demo_gui_blank = Some g' /\
    out_dir g' = out_dir demo_gui /\ max_res_index g' = max_res_index demo_gui /\
    format_index g' = format_index demo_gui /\
    table g' = table demo_gui_blank /\ url_input g' = url_input demo_gui_blank /\
    worker g' = worker demo_gui_blank.
Proof.
  split; [cbn; lia |].
  apply (close_restore_roundtrip demo_gui demo_gui_blank [("fmt", VStr "x")] true);
    cbn; lia.
Defined.

Lemma restore_defaults_witness :
  (dict_get "out_dir" [("geometry", VStr "800x600")] = None /\
   dict_get "max_res" [("geometry", VStr "800x600")] = None /\
   dict_get "fmt" [("geometry", VStr "800x600")] = None) /\
  exists g', restore [("geometry", VStr "800x600")] demo_gui = Some g' /\
    out_dir g' = out_dir demo_gui /\
    combo_text max_res_items (max_res_index g') = "No cap" /\
    combo_text format_items (format_index g') = "MKV (safe)" /\
    table g' = table demo_gui.
Proof.
  split; [split; [reflexivity | split; reflexivity] |].
  apply restore_defaults. split; [reflexivity | split; reflexivity].
Defined.

Lemma restore_indices_valid_witness :
  let g' := {| table := demo_table; url_input := "  https://youtu.be/abc  ";
               out_dir := "/home/user/Downloads"; max_res_index := -1; format_index := 1;
               btn_start_enabled := true; btn_stop_enabled := false;
               worker := None; worker_running := false |} in
  restore [("max_res", VStr " 9 "); ("fmt", VInt 1)] demo_gui = Some g' /\
  (-1 <= max_res_index g' < 5 /\ -1 <= format_index g' < 2 /\
   (max_res_index g' = -1 ->
    start (fun a b => (a ++ "/" ++ b)%string) (fun _ => false) g' = g')).
Proof.
  cbv zeta.
  assert (H : restore [("max_res", VStr " 9 "); ("fmt", VInt 1)] demo_gui =
              Some {| table := demo_table; url_input := "  https://youtu.be/abc  ";
                      out_dir := "/home/user/Downloads"; max_res_index := -1;
                      format_index := 1; btn_start_enabled := true;
                      btn_stop_enabled := false; worker := None;
                      worker_running := false |}) by reflexivity.
  split; [exact H |].
  exact (restore_indices_valid (fun a b => (a ++ "/" ++ b)%string) (fun _ => false) _ _ _ H).
Defined.


